(** * The external scanner of tree-sitter-yuho, embedded and verified

    Source: [src/tree-sitter-yuho/src/scanner.c].  The scanner recognises
    three context-sensitive tokens of the Yuho grammar: the literal
    content of a string and the two markers of an interpolation
    [${ ... }].  It owns a three-field state, a codec for that state and
    the [scan] entry point driven by the tree-sitter runtime.

    Conventions of the embedding:
    - a character ([int32_t lookahead]) is a [Z] code point;
    - [uint8_t] is a [Z] with the wrap-around modulo 256 written out;
    - a serialization buffer is a [list byte];
    - the [TSLexer] the runtime hands to [scan] is a record with the
      characters before the token start, the characters of the token so
      far and the remaining input;
    - the two [while] loops take fuel and answer [None] when it runs
      out; the termination theorems give the fuel that is enough. *)

From Stdlib Require Import ZArith List Bool Lia.
From Stdlib Require Import Strings.Byte.
Import ListNotations.
Open Scope Z_scope.

(** ** Data model *)

(** [enum TokenType] *)
Inductive TokenType : Type :=
| STRING_CONTENT
| INTERPOLATION_START
| INTERPOLATION_END
| ERROR_SENTINEL.

Definition TokenType_eqb (a b : TokenType) : bool :=
  match a, b with
  | STRING_CONTENT, STRING_CONTENT
  | INTERPOLATION_START, INTERPOLATION_START
  | INTERPOLATION_END, INTERPOLATION_END
  | ERROR_SENTINEL, ERROR_SENTINEL => true
  | _, _ => false
  end.

(** [typedef struct { bool in_string; bool in_interpolation;
    uint8_t interpolation_depth; } Scanner;] *)
Record Scanner : Type := mkScanner {
  in_string : bool;
  in_interpolation : bool;
  interpolation_depth : Z
}.

(** The values a [uint8_t] field can hold. *)
Definition uint8_range (z : Z) : Prop := 0 <= z < 256.

Definition Scanner_wf (s : Scanner) : Prop :=
  uint8_range (interpolation_depth s).

(** [scanner->interpolation_depth++] and [--] on a [uint8_t]. *)
Definition uint8_incr (z : Z) : Z := (z + 1) mod 256.
Definition uint8_decr (z : Z) : Z := (z - 1) mod 256.

Definition set_in_interpolation (s : Scanner) (b : bool) : Scanner :=
  mkScanner (in_string s) b (interpolation_depth s).

Definition set_interpolation_depth (s : Scanner) (d : Z) : Scanner :=
  mkScanner (in_string s) (in_interpolation s) d.

(** [tree_sitter_yuho_external_scanner_create] *)
Definition create : Scanner := mkScanner false false 0.

(** ** Boundary codec *)

(** [(char)b] for a [bool]. *)
Definition char_of_bool (b : bool) : byte := if b then x01 else x00.

(** [(char)d] for a [uint8_t]: the byte with the same bit pattern. *)
Definition char_of_uint8 (d : Z) : byte :=
  match Byte.of_N (Z.to_N (d mod 256)) with
  | Some b => b
  | None => x00
  end.

(** Assignment of a [char] to a [bool]: any non-zero byte is [true]. *)
Definition bool_of_char (c : byte) : bool := negb (Byte.eqb c x00).

(** Assignment of a [char] to a [uint8_t]. *)
Definition uint8_of_char (c : byte) : Z := Z.of_N (Byte.to_N c).

(** [tree_sitter_yuho_external_scanner_serialize]: the bytes written to
    [buffer]; the returned count is their number. *)
Definition serialize (s : Scanner) : list byte :=
  [ char_of_bool (in_string s);
    char_of_bool (in_interpolation s);
    char_of_uint8 (interpolation_depth s) ].

(** [tree_sitter_yuho_external_scanner_deserialize]: [length] is the
    length of the list; the three fields of [scanner] are overwritten on
    both branches. *)
Definition deserialize (scanner : Scanner) (buffer : list byte) : Scanner :=
  if (3 <=? length buffer)%nat then
    mkScanner (bool_of_char (nth 0 buffer x00))
              (bool_of_char (nth 1 buffer x00))
              (uint8_of_char (nth 2 buffer x00))
  else
    mkScanner false false 0.

(** ** The lexer handed to the scanner

    The runtime's [TSLexer] is seen through [lookahead], [eof],
    [advance] and [result_symbol]; the scanner never calls [mark_end],
    so the token the runtime builds from a successful call runs from the
    token start to the cursor.  Advancing with [skip = true] moves the
    token start to the cursor; at the end of the input [advance] does
    nothing and [lookahead] is 0. *)
Record TSLexer : Type := mkLexer {
  skipped : list Z;        (* input before the token start *)
  token : list Z;          (* from the token start to the cursor *)
  rest : list Z;           (* from the cursor on *)
  result_symbol : option TokenType
}.

Definition lookahead (l : TSLexer) : Z :=
  match rest l with
  | [] => 0
  | c :: _ => c
  end.

Definition eof (l : TSLexer) : bool :=
  match rest l with
  | [] => true
  | _ :: _ => false
  end.

Definition lexer_advance (l : TSLexer) (skip : bool) : TSLexer :=
  match rest l with
  | [] => l
  | c :: r =>
      if skip
      then mkLexer (skipped l ++ token l ++ [c]) [] r (result_symbol l)
      else mkLexer (skipped l) (token l ++ [c]) r (result_symbol l)
  end.

Definition set_result_symbol (l : TSLexer) (t : TokenType) : TSLexer :=
  mkLexer (skipped l) (token l) (rest l) (Some t).

(** The lexer at the start of a call: the token start is the cursor. *)
Definition lexer_at (input : list Z) : TSLexer := mkLexer [] [] input None.

(** [static void advance(TSLexer *lexer)] *)
Definition advance (l : TSLexer) : TSLexer := lexer_advance l false.

(** [static void skip(TSLexer *lexer)] *)
Definition skip (l : TSLexer) : TSLexer := lexer_advance l true.

(** Character constants of the source. *)
Definition NUL : Z := 0.
Definition QUOTE : Z := 34.
Definition DOLLAR : Z := 36.
Definition BACKSLASH : Z := 92.
Definition LBRACE : Z := 123.
Definition RBRACE : Z := 125.

(** The end-of-input test of [scan_string_content], written twice in the
    source: [lexer->lookahead == '\0' || lexer->eof(lexer)]. *)
Definition at_end (l : TSLexer) : bool := (lookahead l =? NUL) || eof l.

(** ** String-content scanning *)

(** What one pass through the body of [while (true)] does. *)
Inductive iteration : Type :=
| Break                                    (* [break] *)
| Return (r : bool * Scanner * TSLexer)    (* [return true] *)
| Continue (l : TSLexer) (has_content : bool).

Definition string_content_iter
    (l : TSLexer) (scanner : Scanner) (has_content : bool) : iteration :=
  if at_end l then Break
  else if lookahead l =? QUOTE then Break
  else if lookahead l =? BACKSLASH then
    let l1 := advance l in
    if negb (at_end l1) then Continue (advance l1) true
    else Continue l1 has_content
  else if lookahead l =? DOLLAR then
    let l1 := advance l in
    if lookahead l1 =? LBRACE then
      let l2 := advance (set_result_symbol l1 INTERPOLATION_START) in
      Return (true,
              set_interpolation_depth (set_in_interpolation scanner true) 1,
              l2)
    else Continue l1 true
  else Continue (advance l) true.

(** The loop, and the test of [has_content] after it. *)
Fixpoint string_content_loop (fuel : nat)
    (l : TSLexer) (scanner : Scanner) (has_content : bool)
    : option (bool * Scanner * TSLexer) :=
  match fuel with
  | O => None
  | S fuel' =>
      match string_content_iter l scanner has_content with
      | Break =>
          if has_content
          then Some (true, scanner, set_result_symbol l STRING_CONTENT)
          else Some (false, scanner, l)
      | Return r => Some r
      | Continue l' has_content' =>
          string_content_loop fuel' l' scanner has_content'
      end
  end.

(** [static bool scan_string_content(TSLexer *lexer, Scanner *scanner)] *)
Definition scan_string_content (fuel : nat) (l : TSLexer) (scanner : Scanner)
    : option (bool * Scanner * TSLexer) :=
  string_content_loop fuel l scanner false.

(** ** Interpolation end *)

(** [static bool scan_interpolation_end(TSLexer *lexer, Scanner *scanner)] *)
Definition scan_interpolation_end (l : TSLexer) (scanner : Scanner)
    : bool * Scanner * TSLexer :=
  if in_interpolation scanner && (lookahead l =? RBRACE) then
    let s1 := set_interpolation_depth scanner
                (uint8_decr (interpolation_depth scanner)) in
    if interpolation_depth s1 =? 0 then
      let l1 := advance l in
      (true, set_in_interpolation s1 false,
       set_result_symbol l1 INTERPOLATION_END)
    else (false, s1, l)
  else (false, scanner, l).

(** ** The scan entry point *)

Section Scan.

(** [iswspace] of <wctype.h>: which characters it accepts depends on the
    locale of the host process. *)
Variable iswspace : Z -> bool.

(** [while (iswspace(lexer->lookahead)) skip(lexer);] *)
Fixpoint skip_whitespace (fuel : nat) (l : TSLexer) : option TSLexer :=
  match fuel with
  | O => None
  | S fuel' =>
      if iswspace (lookahead l) then skip_whitespace fuel' (skip l)
      else Some l
  end.

(** The part of [scan] after the whitespace loop. *)
Definition scan_tokens (fuel : nat) (scanner : Scanner) (l : TSLexer)
    (valid_symbols : TokenType -> bool) : option (bool * Scanner * TSLexer) :=
  let '(found, s1, l1) :=
    if valid_symbols INTERPOLATION_END && in_interpolation scanner
    then scan_interpolation_end l scanner
    else (false, scanner, l) in
  if found then Some (true, s1, l1)
  else
    let s2 :=
      if in_interpolation s1 then
        if lookahead l1 =? LBRACE
        then set_interpolation_depth s1 (uint8_incr (interpolation_depth s1))
        else s1
      else s1 in
    if valid_symbols STRING_CONTENT && in_string s2
    then scan_string_content fuel l1 s2
    else Some (false, s2, l1).

(** [tree_sitter_yuho_external_scanner_scan]: the flag returned, the
    scanner and the lexer after the call. *)
Definition scan (fuel : nat) (scanner : Scanner) (l : TSLexer)
    (valid_symbols : TokenType -> bool) : option (bool * Scanner * TSLexer) :=
  match skip_whitespace fuel l with
  | None => None
  | Some l1 => scan_tokens fuel scanner l1 valid_symbols
  end.

End Scan.

(** [iswspace] in the "C" locale, the locale of a process that never
    calls [setlocale]: space, and the controls from tab to carriage
    return. *)
Definition iswspace_C (c : Z) : bool := (c =? 32) || ((9 <=? c) && (c <=? 13)).

(** Where the string-content loop stops without consuming: the end of
    the input, a NUL or a quote. *)
Definition stops_loop (stop : list Z) : Prop :=
  match stop with
  | [] => True
  | c :: _ => c = NUL \/ c = QUOTE
  end.

(** ** Reachable states and the invariant of the state *)

(** [interpolation_depth == 0] whenever [in_interpolation == false]. *)
Definition depth_invariant (s : Scanner) : Prop :=
  in_interpolation s = false -> interpolation_depth s = 0.

(** The states a session can be in.  The scanner itself never writes
    [in_string]; [reach_in_string] stands for whatever drives that flag
    from outside, so that the states in which string scanning runs are
    covered too. *)
Inductive reachable (iswspace : Z -> bool) : Scanner -> Prop :=
| reach_create : reachable iswspace create
| reach_scan : forall s fuel l valid_symbols found s' l',
    reachable iswspace s ->
    scan iswspace fuel s l valid_symbols = Some (found, s', l') ->
    reachable iswspace s'
| reach_restore : forall s handle,
    reachable iswspace s ->
    reachable iswspace (deserialize handle (serialize s))
| reach_reset : forall handle buffer,
    (length buffer < 3)%nat ->
    reachable iswspace (deserialize handle buffer)
| reach_in_string : forall s b,
    reachable iswspace s ->
    reachable iswspace
      (mkScanner b (in_interpolation s) (interpolation_depth s)).

(** ** Statements of the specification that the code does not satisfy *)

(** Characters that the specification calls literal content without
    quote, backslash or dollar. *)
Definition no_quote_backslash_dollar (c : Z) : bool :=
  negb (c =? QUOTE) && negb (c =? BACKSLASH) && negb (c =? DOLLAR).

(** The same, and not the NUL that [scan_string_content] takes for the
    end of the input. *)
Definition plain (c : Z) : bool :=
  no_quote_backslash_dollar c && negb (c =? NUL).

(** The text up to the closing quote is returned whole as StringContent. *)
Definition text_up_to_quote_is_the_span (iswspace : Z -> bool) : Prop :=
  forall s valid_symbols content tl fuel,
    in_string s = true ->
    valid_symbols STRING_CONTENT = true ->
    content <> [] ->
    forallb no_quote_backslash_dollar content = true ->
    (length (content ++ QUOTE :: tl) < fuel)%nat ->
    exists s' l',
      scan iswspace fuel s (lexer_at (content ++ QUOTE :: tl)) valid_symbols
        = Some (true, s', l')
      /\ result_symbol l' = Some STRING_CONTENT
      /\ token l' = content
      /\ rest l' = QUOTE :: tl.

(** A closing brace that leaves the depth positive is not consumed and
    the call returns no token. *)
Definition positive_depth_returns_no_token (iswspace : Z -> bool) : Prop :=
  forall s valid_symbols l fuel,
    valid_symbols INTERPOLATION_END = true ->
    in_interpolation s = true ->
    lookahead l = RBRACE ->
    uint8_decr (interpolation_depth s) <> 0 ->
    (length (rest l) < fuel)%nat ->
    scan iswspace fuel s l valid_symbols
      = Some (false,
              set_interpolation_depth s (uint8_decr (interpolation_depth s)),
              l).

(** A lone backslash before the end of the input is reported as
    StringContent. *)
Definition lone_backslash_is_content (iswspace : Z -> bool) : Prop :=
  forall s valid_symbols fuel,
    in_string s = true ->
    valid_symbols STRING_CONTENT = true ->
    (1 < fuel)%nat ->
    exists s' l',
      scan iswspace fuel s (lexer_at [BACKSLASH]) valid_symbols
        = Some (true, s', l')
      /\ result_symbol l' = Some STRING_CONTENT
      /\ token l' = [BACKSLASH].

(** A backslash and the character that follows it before the end of the
    input, whatever that character is, are consumed as two characters of
    content. *)
Definition escape_consumes_any_character : Prop :=
  forall l s h c r,
    rest l = BACKSLASH :: c :: r ->
    string_content_iter l s h
    = Continue (mkLexer (skipped l) (token l ++ [BACKSLASH; c]) r
                  (result_symbol l)) true.

(** Sets of accepted kinds used in the examples. *)
Definition only_string_content (t : TokenType) : bool :=
  TokenType_eqb t STRING_CONTENT.

Definition all_but_error_sentinel (t : TokenType) : bool :=
  negb (TokenType_eqb t ERROR_SENTINEL).

Definition every_symbol (t : TokenType) : bool := true.

Definition no_symbol (t : TokenType) : bool := false.

(** ** Notions used by the further properties *)

(** The whole input as the lexer holds it: what lies before the token
    start, the token so far and what is still to be read. *)
Definition lexer_text (l : TSLexer) : list Z :=
  skipped l ++ token l ++ rest l.

(** From [l] to [l'] the cursor has consumed [consumed] into the token,
    the token start staying where it was. *)
Definition consumes (l l' : TSLexer) (consumed : list Z) : Prop :=
  skipped l' = skipped l
  /\ token l' = token l ++ consumed
  /\ rest l = consumed ++ rest l'.

(** The texts the string-content loop consumes, read from the left: an
    escape pair, a dollar that no opening brace follows, or a character
    that is no backslash, quote, dollar or NUL, any number of times; the
    text ends there, or with a lone backslash, or, when [opener] is set,
    with the two characters of the interpolation opener. *)
Inductive scanned : bool -> list Z -> Prop :=
| scanned_stop : scanned false []
| scanned_opener : scanned true [DOLLAR; LBRACE]
| scanned_trailing_backslash : scanned false [BACKSLASH]
| scanned_escape : forall opener c a,
    c <> NUL -> scanned opener a -> scanned opener (BACKSLASH :: c :: a)
| scanned_dollar : forall opener a,
    hd 0 a <> LBRACE -> scanned opener a -> scanned opener (DOLLAR :: a)
| scanned_char : forall opener c a,
    c <> BACKSLASH -> c <> QUOTE -> c <> DOLLAR -> c <> NUL ->
    scanned opener a -> scanned opener (c :: a).

(** The states a session reaches through the entry points of the scanner
    alone: [create], [scan], and [deserialize] of a snapshot taken by
    [serialize] or of a short buffer. *)
Inductive entry_reachable (iswspace : Z -> bool) : Scanner -> Prop :=
| entry_create : entry_reachable iswspace create
| entry_scan : forall s fuel l valid_symbols found s' l',
    entry_reachable iswspace s ->
    scan iswspace fuel s l valid_symbols = Some (found, s', l') ->
    entry_reachable iswspace s'
| entry_restore : forall s handle,
    entry_reachable iswspace s ->
    entry_reachable iswspace (deserialize handle (serialize s))
| entry_reset : forall handle buffer,
    (length buffer < 3)%nat ->
    entry_reachable iswspace (deserialize handle buffer).

(** * Theorems *)

(** ** The codec *)

Lemma bool_of_char_of_bool (b : bool) : bool_of_char (char_of_bool b) = b.
Proof. destruct b; reflexivity. Qed.

Lemma bool_of_char_true_iff (c : byte) : bool_of_char c = true <-> c <> x00.
Proof.
  unfold bool_of_char. split.
  - intros H E. subst c. discriminate H.
  - intros H. destruct (Byte.eqb c x00) eqn:E; [|reflexivity].
    apply Byte.byte_dec_bl in E. contradiction.
Qed.

Lemma char_of_uint8_value (d : Z) :
  uint8_range d -> Byte.to_N (char_of_uint8 d) = Z.to_N d.
Proof.
  intros Hd. unfold uint8_range in Hd. unfold char_of_uint8.
  rewrite Z.mod_small by lia.
  destruct (Byte.of_N (Z.to_N d)) as [b|] eqn:E.
  - now apply Byte.to_of_N.
  - apply Byte.of_N_None_iff in E. lia.
Qed.

Lemma uint8_of_char_of_uint8 (d : Z) :
  uint8_range d -> uint8_of_char (char_of_uint8 d) = d.
Proof.
  intros Hd. unfold uint8_of_char. rewrite char_of_uint8_value by assumption.
  unfold uint8_range in Hd. lia.
Qed.

Lemma uint8_of_char_range (c : byte) : uint8_range (uint8_of_char c).
Proof.
  unfold uint8_range, uint8_of_char.
  pose proof (Byte.to_N_bounded c). lia.
Qed.

Lemma char_of_uint8_of_char (c : byte) : char_of_uint8 (uint8_of_char c) = c.
Proof.
  unfold char_of_uint8.
  rewrite Z.mod_small by apply uint8_of_char_range.
  unfold uint8_of_char. rewrite N2Z.id, Byte.of_to_N. reflexivity.
Qed.

Lemma deserialize_three (handle : Scanner) (b0 b1 b2 : byte) (tl : list byte) :
  deserialize handle (b0 :: b1 :: b2 :: tl)
  = mkScanner (bool_of_char b0) (bool_of_char b1) (uint8_of_char b2).
Proof. reflexivity. Qed.

Lemma deserialize_wf (handle : Scanner) (buffer : list byte) :
  Scanner_wf (deserialize handle buffer).
Proof.
  unfold deserialize, Scanner_wf.
  destruct (3 <=? length buffer)%nat; simpl.
  - apply uint8_of_char_range.
  - unfold uint8_range. lia.
Qed.

(** The codec on a state whose depth is a [uint8_t] value. *)
Lemma codec_roundtrip_wf (s handle : Scanner) :
  Scanner_wf s ->
  length (serialize s) = 3%nat
  /\ map Byte.to_N (serialize s)
     = [ N.b2n (in_string s); N.b2n (in_interpolation s);
         Z.to_N (interpolation_depth s) ]
  /\ deserialize handle (serialize s) = s.
Proof.
  destruct s as [str itp d]. intros Hwf. unfold Scanner_wf in Hwf.
  simpl in Hwf. split; [reflexivity|]. split.
  - unfold serialize. simpl. rewrite char_of_uint8_value by assumption.
    destruct str, itp; reflexivity.
  - unfold serialize. rewrite deserialize_three. simpl.
    rewrite !bool_of_char_of_bool, uint8_of_char_of_uint8 by assumption.
    reflexivity.
Qed.

Lemma deserialize_short (handle : Scanner) (buffer : list byte) :
  (length buffer < 3)%nat ->
  deserialize handle buffer = mkScanner false false 0.
Proof.
  intros Hlen. unfold deserialize.
  destruct (Nat.leb_spec 3 (length buffer)) as [H|H]; [lia|reflexivity].
Qed.

(** C5.  A buffer shorter than three bytes resets the state to
    all-clear whatever it holds; a buffer of three bytes or more sets
    the fields from its first three bytes: a flag is set exactly when
    its byte is not zero, the depth is the value of the third byte, and
    when the two flag bytes are 0 or 1 serializing again gives the same
    three bytes. *)
Theorem deserialize_short_or_verbatim :
  forall (handle : Scanner) (buffer : list byte),
    ((length buffer < 3)%nat ->
       deserialize handle buffer = mkScanner false false 0)
    /\ ((3 <= length buffer)%nat ->
        exists b0 b1 b2 tl,
          buffer = b0 :: b1 :: b2 :: tl
          /\ (in_string (deserialize handle buffer) = true <-> b0 <> x00)
          /\ (in_interpolation (deserialize handle buffer) = true
              <-> b1 <> x00)
          /\ interpolation_depth (deserialize handle buffer)
             = Z.of_N (Byte.to_N b2)
          /\ ((b0 = x00 \/ b0 = x01) -> (b1 = x00 \/ b1 = x01) ->
              serialize (deserialize handle buffer) = [b0; b1; b2])).
Proof.
  intros handle buffer. split.
  - apply deserialize_short.
  - intros Hlen.
    destruct buffer as [|b0 [|b1 [|b2 tl]]]; simpl in Hlen; try lia.
    exists b0, b1, b2, tl. rewrite deserialize_three. simpl.
    split; [reflexivity|].
    split; [apply bool_of_char_true_iff|].
    split; [apply bool_of_char_true_iff|].
    split; [reflexivity|].
    intros H0 H1. unfold serialize. simpl.
    rewrite char_of_uint8_of_char.
    destruct H0 as [-> | ->], H1 as [-> | ->]; reflexivity.
Qed.

Lemma deserialize_short_or_verbatim_witness :
  deserialize (mkScanner true true 7) [xff; xff] = mkScanner false false 0
  /\ exists b0 b1 b2 tl,
       [x01; x00; x05; xff] = b0 :: b1 :: b2 :: tl
       /\ (in_string (deserialize create [x01; x00; x05; xff]) = true
           <-> b0 <> x00)
       /\ (in_interpolation (deserialize create [x01; x00; x05; xff]) = true
           <-> b1 <> x00)
       /\ interpolation_depth (deserialize create [x01; x00; x05; xff])
          = Z.of_N (Byte.to_N b2)
       /\ ((b0 = x00 \/ b0 = x01) -> (b1 = x00 \/ b1 = x01) ->
           serialize (deserialize create [x01; x00; x05; xff])
           = [b0; b1; b2]).
Proof.
  split.
  - apply (proj1 (deserialize_short_or_verbatim
                    (mkScanner true true 7) [xff; xff])).
    simpl. lia.
  - apply (proj2 (deserialize_short_or_verbatim
                    create [x01; x00; x05; xff])).
    simpl. lia.
Defined.

(** ** The lexer *)

Lemma lexer_advance_cons (l : TSLexer) (c : Z) (r : list Z) (b : bool) :
  rest l = c :: r ->
  lexer_advance l b
  = if b
    then mkLexer (skipped l ++ token l ++ [c]) [] r (result_symbol l)
    else mkLexer (skipped l) (token l ++ [c]) r (result_symbol l).
Proof. intros H. unfold lexer_advance. rewrite H. reflexivity. Qed.

Lemma advance_cons (l : TSLexer) (c : Z) (r : list Z) :
  rest l = c :: r ->
  advance l = mkLexer (skipped l) (token l ++ [c]) r (result_symbol l).
Proof. intros H. unfold advance. now rewrite (lexer_advance_cons l c r). Qed.

Lemma skip_cons (l : TSLexer) (c : Z) (r : list Z) :
  rest l = c :: r ->
  skip l = mkLexer (skipped l ++ token l ++ [c]) [] r (result_symbol l).
Proof. intros H. unfold skip. now rewrite (lexer_advance_cons l c r). Qed.

Lemma lookahead_cons (l : TSLexer) (c : Z) (r : list Z) :
  rest l = c :: r -> lookahead l = c.
Proof. intros H. unfold lookahead. now rewrite H. Qed.

Lemma lookahead_nonzero (l : TSLexer) :
  lookahead l <> 0 -> exists r, rest l = lookahead l :: r.
Proof.
  unfold lookahead. destruct (rest l) as [|c r]; intros H.
  - contradiction.
  - now exists r.
Qed.

Lemma at_end_false (l : TSLexer) :
  at_end l = false -> exists c r, rest l = c :: r /\ c <> NUL.
Proof.
  unfold at_end, lookahead, eof. destruct (rest l) as [|c r]; intros H.
  - rewrite orb_true_r in H. discriminate.
  - exists c, r. split; [reflexivity|].
    rewrite orb_false_r in H. now apply Z.eqb_neq.
Qed.

Lemma at_end_cons (l : TSLexer) (c : Z) (r : list Z) :
  rest l = c :: r -> at_end l = (c =? NUL).
Proof.
  intros H. unfold at_end, lookahead, eof. rewrite H. apply orb_false_r.
Qed.

Lemma at_end_nil (l : TSLexer) : rest l = [] -> at_end l = true.
Proof.
  intros H. unfold at_end, lookahead, eof. rewrite H. reflexivity.
Qed.

Lemma lexer_advance_rest_le (l : TSLexer) (b : bool) :
  (length (rest (lexer_advance l b)) <= length (rest l))%nat.
Proof.
  unfold lexer_advance. destruct (rest l) as [|c r] eqn:E.
  - rewrite E. simpl. lia.
  - destruct b; simpl; lia.
Qed.

Lemma result_symbol_lexer_advance (l : TSLexer) (b : bool) :
  result_symbol (lexer_advance l b) = result_symbol l.
Proof.
  unfold lexer_advance. destruct (rest l); [reflexivity|].
  destruct b; reflexivity.
Qed.

Lemma rest_set_result_symbol (l : TSLexer) (t : TokenType) :
  rest (set_result_symbol l t) = rest l.
Proof. reflexivity. Qed.

(** ** Termination *)

(** An iteration of the string-content loop that goes round again has
    moved the cursor. *)
Lemma string_content_iter_progress
    (l : TSLexer) (s : Scanner) (h : bool) (l' : TSLexer) (h' : bool) :
  string_content_iter l s h = Continue l' h' ->
  (length (rest l') < length (rest l))%nat.
Proof.
  unfold string_content_iter.
  destruct (at_end l) eqn:Hend; [discriminate|].
  destruct (at_end_false l Hend) as (c & r & Hr & _).
  rewrite (advance_cons l c r Hr).
  destruct (lookahead l =? QUOTE); [discriminate|].
  destruct (lookahead l =? BACKSLASH).
  - match goal with |- context [negb (at_end ?x)] => set (l1 := x) end.
    destruct (negb (at_end l1)); intros H; inversion H; subst.
    + pose proof (lexer_advance_rest_le l1 false) as Hle.
      unfold advance. subst l1. simpl in *. rewrite Hr. simpl. lia.
    + rewrite Hr. simpl. lia.
  - destruct (lookahead l =? DOLLAR).
    + match goal with |- context [lookahead ?x =? LBRACE] =>
        destruct (lookahead x =? LBRACE) end;
        intros H; inversion H; subst. rewrite Hr. simpl. lia.
    + intros H; inversion H; subst. rewrite Hr. simpl. lia.
Qed.

Lemma string_content_loop_enough_fuel
    (fuel : nat) : forall (l : TSLexer) (s : Scanner) (h : bool),
  (length (rest l) < fuel)%nat ->
  exists r, string_content_loop fuel l s h = Some r.
Proof.
  induction fuel as [|fuel IH]; intros l s h Hlen; [lia|].
  simpl. destruct (string_content_iter l s h) as [|r|l' h'] eqn:E.
  - destruct h; eauto.
  - eauto.
  - apply IH. apply string_content_iter_progress in E. lia.
Qed.

Lemma string_content_loop_more_fuel
    (fuel : nat) : forall (l : TSLexer) (s : Scanner) (h : bool) r,
  string_content_loop fuel l s h = Some r ->
  forall fuel', (fuel <= fuel')%nat -> string_content_loop fuel' l s h = Some r.
Proof.
  induction fuel as [|fuel IH]; intros l s h r H fuel' Hle; [discriminate|].
  destruct fuel' as [|fuel']; [lia|].
  simpl in *. destruct (string_content_iter l s h) as [|r0|l' h'].
  - assumption.
  - assumption.
  - apply (IH _ _ _ _ H). lia.
Qed.

Section ScanTermination.

Variable iswspace : Z -> bool.

(** ISO C: the null wide character is not a space in any locale. *)
Hypothesis iswspace_NUL : iswspace NUL = false.

Lemma skip_moves_cursor (l : TSLexer) :
  iswspace (lookahead l) = true ->
  (length (rest (skip l)) < length (rest l))%nat.
Proof.
  intros Hws.
  destruct (lookahead_nonzero l) as (r & Hr).
  - intros H0. rewrite H0 in Hws. unfold NUL in iswspace_NUL. congruence.
  - rewrite (skip_cons l _ r Hr). rewrite Hr. simpl. lia.
Qed.

Lemma skip_whitespace_enough_fuel
    (fuel : nat) : forall (l : TSLexer),
  (length (rest l) < fuel)%nat ->
  exists l', skip_whitespace iswspace fuel l = Some l'
             /\ (length (rest l') <= length (rest l))%nat.
Proof.
  induction fuel as [|fuel IH]; intros l Hlen; [lia|].
  simpl. destruct (iswspace (lookahead l)) eqn:Hws.
  - pose proof (skip_moves_cursor l Hws) as Hlt.
    destruct (IH (skip l)) as (l' & E & Hle); [lia|].
    exists l'. split; [assumption|lia].
  - exists l. split; [reflexivity|lia].
Qed.

End ScanTermination.

Lemma skip_whitespace_more_fuel (iswspace : Z -> bool)
    (fuel : nat) : forall (l l' : TSLexer),
  skip_whitespace iswspace fuel l = Some l' ->
  forall fuel', (fuel <= fuel')%nat ->
  skip_whitespace iswspace fuel' l = Some l'.
Proof.
  induction fuel as [|fuel IH]; intros l l' H fuel' Hle; [discriminate|].
  destruct fuel' as [|fuel']; [lia|].
  simpl in *. destruct (iswspace (lookahead l)).
  - apply (IH _ _ H). lia.
  - assumption.
Qed.

Lemma scan_interpolation_end_rest_le (l : TSLexer) (s : Scanner) :
  (length (rest (snd (scan_interpolation_end l s))) <= length (rest l))%nat.
Proof.
  unfold scan_interpolation_end.
  destruct (in_interpolation s && (lookahead l =? RBRACE)); simpl; [|lia].
  destruct (uint8_decr (interpolation_depth s) =? 0); simpl; [|lia].
  apply lexer_advance_rest_le.
Qed.

Lemma scan_tokens_enough_fuel (fuel : nat) (s : Scanner) (l : TSLexer)
    (valid_symbols : TokenType -> bool) :
  (length (rest l) < fuel)%nat ->
  exists r, scan_tokens fuel s l valid_symbols = Some r.
Proof.
  intros Hlen. unfold scan_tokens.
  pose proof (scan_interpolation_end_rest_le l s) as Hle.
  destruct (valid_symbols INTERPOLATION_END && in_interpolation s).
  - destruct (scan_interpolation_end l s) as [[found s1] l1]. simpl in Hle.
    destruct found; [eauto|].
    match goal with |- context [valid_symbols STRING_CONTENT && ?b] =>
      destruct (valid_symbols STRING_CONTENT && b) end; [|eauto].
    apply string_content_loop_enough_fuel. lia.
  - match goal with |- context [valid_symbols STRING_CONTENT && ?b] =>
      destruct (valid_symbols STRING_CONTENT && b) end; [|eauto].
    apply string_content_loop_enough_fuel. lia.
Qed.

Lemma scan_tokens_more_fuel (fuel : nat) (s : Scanner) (l : TSLexer)
    (valid_symbols : TokenType -> bool) r :
  scan_tokens fuel s l valid_symbols = Some r ->
  forall fuel', (fuel <= fuel')%nat ->
  scan_tokens fuel' s l valid_symbols = Some r.
Proof.
  unfold scan_tokens. intros H fuel' Hle.
  destruct (if valid_symbols INTERPOLATION_END && in_interpolation s
            then scan_interpolation_end l s else (false, s, l))
    as [[found s1] l1].
  destruct found; [assumption|].
  match goal with |- context [valid_symbols STRING_CONTENT && ?b] =>
    destruct (valid_symbols STRING_CONTENT && b) end; [|assumption].
  unfold scan_string_content in *.
  now apply (string_content_loop_more_fuel fuel).
Qed.

(** C9.  With [iswspace] rejecting the null character, a call on an
    input of [n] characters returns within fuel [n + 1], and with the
    same result for any larger fuel; an iteration of the whitespace loop
    moves the cursor, and an iteration of the string-content loop either
    leaves the loop or moves the cursor. *)
Theorem scan_terminates :
  forall (iswspace : Z -> bool),
    iswspace NUL = false ->
    forall (s : Scanner) (l : TSLexer) (valid_symbols : TokenType -> bool),
      (exists r, forall fuel,
          (length (rest l) < fuel)%nat ->
          scan iswspace fuel s l valid_symbols = Some r)
      /\ (iswspace (lookahead l) = true ->
          (length (rest (skip l)) < length (rest l))%nat)
      /\ (forall h l' h',
             string_content_iter l s h = Continue l' h' ->
             (length (rest l') < length (rest l))%nat).
Proof.
  intros iswspace Hnul s l valid_symbols. split; [|split].
  - set (n := S (length (rest l))).
    destruct (skip_whitespace_enough_fuel iswspace Hnul n l)
      as (l1 & Hskip & Hle); [unfold n; lia|].
    destruct (scan_tokens_enough_fuel n s l1 valid_symbols)
      as (r & Hr); [unfold n; lia|].
    exists r. intros fuel Hfuel. unfold scan.
    rewrite (skip_whitespace_more_fuel iswspace n l l1 Hskip fuel)
      by (unfold n; lia).
    apply (scan_tokens_more_fuel n); [assumption|unfold n; lia].
  - apply skip_moves_cursor. assumption.
  - intros h l' h'. apply string_content_iter_progress.
Qed.

Lemma scan_terminates_witness :
  iswspace_C NUL = false
  /\ exists r, forall fuel,
       (length (rest (lexer_at [32; 97; 92; 36; 123; 34]%Z)) < fuel)%nat ->
       scan iswspace_C fuel (mkScanner true false 0)
            (lexer_at [32; 97; 92; 36; 123; 34]) every_symbol = Some r.
Proof.
  split; [reflexivity|].
  exact (proj1 (scan_terminates iswspace_C eq_refl (mkScanner true false 0)
                  (lexer_at [32; 97; 92; 36; 123; 34]) every_symbol)).
Defined.

(** ** What a call can change and report *)

Lemma string_content_iter_return
    (l : TSLexer) (s : Scanner) (h : bool) (r : bool * Scanner * TSLexer) :
  string_content_iter l s h = Return r ->
  exists l', r = (true, mkScanner (in_string s) true 1, l')
             /\ result_symbol l' = Some INTERPOLATION_START.
Proof.
  unfold string_content_iter.
  destruct (at_end l); [discriminate|].
  destruct (lookahead l =? QUOTE); [discriminate|].
  destruct (lookahead l =? BACKSLASH).
  - destruct (negb (at_end (advance l))); discriminate.
  - destruct (lookahead l =? DOLLAR); [|discriminate].
    destruct (lookahead (advance l) =? LBRACE); [|discriminate].
    intros H. inversion H; subst. eexists. split; [reflexivity|].
    unfold advance at 1. rewrite result_symbol_lexer_advance. reflexivity.
Qed.

(** The string-content loop leaves the state alone or opens an
    interpolation; a token it reports is StringContent or
    InterpolationStart. *)
Lemma string_content_loop_result
    (fuel : nat) : forall (l : TSLexer) (s : Scanner) (h : bool) found s' l',
  string_content_loop fuel l s h = Some (found, s', l') ->
  (s' = s /\ (found = true -> result_symbol l' = Some STRING_CONTENT))
  \/ (s' = mkScanner (in_string s) true 1 /\ found = true
      /\ result_symbol l' = Some INTERPOLATION_START).
Proof.
  induction fuel as [|fuel IH]; intros l s h found s' l' H; [discriminate|].
  simpl in H. destruct (string_content_iter l s h) as [|r|l1 h1] eqn:E.
  - destruct h; inversion H; subst; left; split; auto. discriminate.
  - apply string_content_iter_return in E. destruct E as (l2 & -> & Hsym).
    inversion H; subst. right. auto.
  - apply (IH _ _ _ _ _ _ H).
Qed.

Lemma scan_interpolation_end_result (l : TSLexer) (s : Scanner) :
  forall found s' l',
    scan_interpolation_end l s = (found, s', l') ->
    (found = true /\ s' = mkScanner (in_string s) false 0
     /\ result_symbol l' = Some INTERPOLATION_END)
    \/ (found = false /\ l' = l /\ in_string s' = in_string s
        /\ in_interpolation s' = in_interpolation s).
Proof.
  intros found s' l'. unfold scan_interpolation_end.
  destruct (in_interpolation s && (lookahead l =? RBRACE)).
  - simpl. destruct (uint8_decr (interpolation_depth s) =? 0) eqn:E;
      intros H; inversion H; subst.
    + left. apply Z.eqb_eq in E.
      unfold set_in_interpolation, set_interpolation_depth. simpl.
      rewrite E. auto.
    + right. auto.
  - intros H; inversion H; subst. right. auto.
Qed.

Lemma scan_tokens_symbol (fuel : nat) (s : Scanner) (l : TSLexer)
    (valid_symbols : TokenType -> bool) (s' : Scanner) (l' : TSLexer) :
  scan_tokens fuel s l valid_symbols = Some (true, s', l') ->
  result_symbol l' = Some STRING_CONTENT
  \/ result_symbol l' = Some INTERPOLATION_START
  \/ result_symbol l' = Some INTERPOLATION_END.
Proof.
  unfold scan_tokens.
  destruct (if valid_symbols INTERPOLATION_END && in_interpolation s
            then scan_interpolation_end l s else (false, s, l))
    as [[found s1] l1] eqn:E.
  destruct found.
  - intros H. inversion H; subst.
    destruct (valid_symbols INTERPOLATION_END && in_interpolation s);
      [|discriminate].
    apply scan_interpolation_end_result in E.
    destruct E as [(_ & _ & Hsym) | (Hf & _)]; [auto|discriminate].
  - match goal with |- context [valid_symbols STRING_CONTENT && ?b] =>
      destruct (valid_symbols STRING_CONTENT && b) end;
      [|discriminate].
    intros H. apply string_content_loop_result in H.
    destruct H as [(_ & Hsym) | (_ & _ & Hsym)]; auto.
Qed.

Lemma scan_tokens_reads_two_symbols (fuel : nat) (s : Scanner) (l : TSLexer)
    (v v' : TokenType -> bool) :
  v STRING_CONTENT = v' STRING_CONTENT ->
  v INTERPOLATION_END = v' INTERPOLATION_END ->
  scan_tokens fuel s l v = scan_tokens fuel s l v'.
Proof. intros H1 H2. unfold scan_tokens. rewrite H1, H2. reflexivity. Qed.

(** C10.  A call that reports a token reports StringContent,
    InterpolationStart or InterpolationEnd, never ErrorSentinel, and two
    sets of accepted kinds that differ at most on ErrorSentinel give the
    same flag, state and lexer. *)
Theorem scan_never_error_sentinel :
  forall (iswspace : Z -> bool) (fuel : nat) (s : Scanner) (l : TSLexer)
         (valid_symbols valid_symbols' : TokenType -> bool),
    (forall t, t <> ERROR_SENTINEL -> valid_symbols t = valid_symbols' t) ->
    scan iswspace fuel s l valid_symbols
      = scan iswspace fuel s l valid_symbols'
    /\ forall s' l',
         scan iswspace fuel s l valid_symbols = Some (true, s', l') ->
         result_symbol l' <> Some ERROR_SENTINEL
         /\ (result_symbol l' = Some STRING_CONTENT
             \/ result_symbol l' = Some INTERPOLATION_START
             \/ result_symbol l' = Some INTERPOLATION_END).
Proof.
  intros iswspace fuel s l v v' Hagree. split.
  - unfold scan. destruct (skip_whitespace iswspace fuel l); [|reflexivity].
    apply scan_tokens_reads_two_symbols; apply Hagree; discriminate.
  - intros s' l'. unfold scan.
    destruct (skip_whitespace iswspace fuel l) as [l1|]; [|discriminate].
    intros H. apply scan_tokens_symbol in H.
    split; [|assumption].
    destruct H as [H | [H | H]]; rewrite H; discriminate.
Qed.

Lemma scan_never_error_sentinel_witness :
  (forall t, t <> ERROR_SENTINEL -> every_symbol t = all_but_error_sentinel t)
  /\ scan iswspace_C 8 (mkScanner true true 1) (lexer_at [32; 125; 34])
       every_symbol
     = scan iswspace_C 8 (mkScanner true true 1) (lexer_at [32; 125; 34])
         all_but_error_sentinel
  /\ forall s' l',
       scan iswspace_C 8 (mkScanner true true 1) (lexer_at [32; 125; 34])
         every_symbol = Some (true, s', l') ->
       result_symbol l' <> Some ERROR_SENTINEL
       /\ (result_symbol l' = Some STRING_CONTENT
           \/ result_symbol l' = Some INTERPOLATION_START
           \/ result_symbol l' = Some INTERPOLATION_END).
Proof.
  assert (H : forall t, t <> ERROR_SENTINEL ->
                        every_symbol t = all_but_error_sentinel t).
  { intros t Ht. destruct t; try reflexivity. contradiction. }
  split; [exact H|].
  exact (scan_never_error_sentinel iswspace_C 8 (mkScanner true true 1)
           (lexer_at [32; 125; 34]) every_symbol all_but_error_sentinel H).
Defined.

(** ** The invariant of the state *)

Lemma uint8_decr_range (z : Z) : uint8_range (uint8_decr z).
Proof. unfold uint8_range, uint8_decr. apply Z.mod_pos_bound. lia. Qed.

Lemma uint8_incr_range (z : Z) : uint8_range (uint8_incr z).
Proof. unfold uint8_range, uint8_incr. apply Z.mod_pos_bound. lia. Qed.

Lemma scan_tokens_invariant (fuel : nat) (s : Scanner) (l : TSLexer)
    (valid_symbols : TokenType -> bool) found s' l' :
  depth_invariant s ->
  scan_tokens fuel s l valid_symbols = Some (found, s', l') ->
  depth_invariant s'.
Proof.
  intros Hinv. unfold scan_tokens.
  assert (H1 : forall f1 s1 l1,
             (if valid_symbols INTERPOLATION_END && in_interpolation s
              then scan_interpolation_end l s else (false, s, l))
             = (f1, s1, l1) ->
             (f1 = true -> depth_invariant s1)
             /\ (f1 = false ->
                 in_interpolation s1 = in_interpolation s
                 /\ (in_interpolation s = false -> s1 = s))).
  { intros f1 s1 l1.
    destruct (valid_symbols INTERPOLATION_END && in_interpolation s).
    - intros E. pose proof E as E'.
      apply scan_interpolation_end_result in E.
      destruct E as [(-> & -> & _) | (-> & _ & _ & Hi)].
      + split; [|discriminate]. intros _ _. reflexivity.
      + split; [discriminate|]. intros _. split; [assumption|].
        intros Hf. unfold scan_interpolation_end in E'.
        rewrite Hf in E'. simpl in E'. now inversion E'.
    - intros E. inversion E; subst. split; [discriminate|]. auto. }
  destruct (if valid_symbols INTERPOLATION_END && in_interpolation s
            then scan_interpolation_end l s else (false, s, l))
    as [[f1 s1] l1].
  destruct (H1 f1 s1 l1 eq_refl) as [Ht Hf].
  destruct f1.
  - intros H. inversion H; subst. now apply Ht.
  - destruct (Hf eq_refl) as [Hi Hs].
    set (s2 := if in_interpolation s1
               then if lookahead l1 =? LBRACE
                    then set_interpolation_depth s1
                           (uint8_incr (interpolation_depth s1))
                    else s1
               else s1).
    assert (Hinv2 : depth_invariant s2).
    { subst s2. destruct (in_interpolation s1) eqn:Hi1.
      - destruct (lookahead l1 =? LBRACE); intros Hc; simpl in Hc; congruence.
      - rewrite Hs by congruence. assumption. }
    destruct (valid_symbols STRING_CONTENT && in_string s2).
    + intros H. apply string_content_loop_result in H.
      destruct H as [(-> & _) | (-> & _)]; [assumption|].
      intros Hc. discriminate Hc.
    + intros H. inversion H; subst. assumption.
Qed.

Lemma scan_invariant (iswspace : Z -> bool) (fuel : nat) (s : Scanner)
    (l : TSLexer) (valid_symbols : TokenType -> bool) found s' l' :
  depth_invariant s ->
  scan iswspace fuel s l valid_symbols = Some (found, s', l') ->
  depth_invariant s'.
Proof.
  intros Hinv. unfold scan.
  destruct (skip_whitespace iswspace fuel l) as [l1|]; [|discriminate].
  now apply scan_tokens_invariant.
Qed.

Lemma deserialize_serialize_invariant (s handle : Scanner) :
  depth_invariant s -> depth_invariant (deserialize handle (serialize s)).
Proof.
  intros Hinv. unfold serialize. rewrite deserialize_three.
  unfold depth_invariant in *. simpl. rewrite bool_of_char_of_bool.
  intros H. rewrite (Hinv H). reflexivity.
Qed.

Lemma reachable_invariant (iswspace : Z -> bool) (s : Scanner) :
  reachable iswspace s -> depth_invariant s.
Proof.
  induction 1 as [|s fuel l v found s' l' _ IH Hscan|s h _ IH|h buf Hlen
                  |s b _ IH].
  - intros _. reflexivity.
  - now apply (scan_invariant iswspace fuel s l v found s' l').
  - now apply deserialize_serialize_invariant.
  - rewrite (deserialize_short h buf Hlen).
    intros _. reflexivity.
  - exact IH.
Qed.

Lemma reachable_in_interpolation :
  reachable iswspace_C (mkScanner true true 1).
Proof.
  apply (reach_scan iswspace_C (mkScanner true false 0) 4
           (lexer_at [36; 123]) only_string_content true
           (mkScanner true true 1)
           (mkLexer [] [36; 123] [] (Some INTERPOLATION_START))).
  - apply (reach_in_string iswspace_C create true). apply reach_create.
  - reflexivity.
Qed.

(** C8.  Every reachable state has depth 0 when it is outside an
    interpolation; a scan call, whatever the input, the fuel and the
    accepted kinds, takes a state with that property to a state with it,
    and so does a round trip through the codec. *)
Theorem depth_invariant_holds :
  forall (iswspace : Z -> bool) (s : Scanner),
    (reachable iswspace s -> depth_invariant s)
    /\ (depth_invariant s ->
        forall fuel l valid_symbols found s' l',
          scan iswspace fuel s l valid_symbols = Some (found, s', l') ->
          depth_invariant s')
    /\ (depth_invariant s ->
        forall handle, depth_invariant (deserialize handle (serialize s))).
Proof.
  intros iswspace s. split; [|split].
  - apply reachable_invariant.
  - intros Hinv fuel l v found s' l'. now apply scan_invariant.
  - intros Hinv handle. now apply deserialize_serialize_invariant.
Qed.

Lemma depth_invariant_holds_witness :
  reachable iswspace_C (mkScanner true true 1)
  /\ depth_invariant (mkScanner true true 1)
  /\ scan iswspace_C 4 (mkScanner true true 1) (lexer_at [125; 34])
       every_symbol
     = Some (true, mkScanner true false 0,
             mkLexer [] [125] [34] (Some INTERPOLATION_END))
  /\ depth_invariant (mkScanner true false 0).
Proof.
  pose proof reachable_in_interpolation as Hr.
  assert (Hi : depth_invariant (mkScanner true true 1)).
  { exact (proj1 (depth_invariant_holds iswspace_C (mkScanner true true 1))
             Hr). }
  split; [exact Hr|]. split; [exact Hi|]. split; [reflexivity|].
  exact (proj1 (proj2 (depth_invariant_holds iswspace_C
                         (mkScanner true true 1)))
           Hi 4%nat (lexer_at [125; 34]) every_symbol true
           (mkScanner true false 0)
           (mkLexer [] [125] [34] (Some INTERPOLATION_END)) eq_refl).
Defined.

(** Reachable states hold a [uint8_t] depth. *)
Lemma scan_tokens_wf (fuel : nat) (s : Scanner) (l : TSLexer)
    (valid_symbols : TokenType -> bool) found s' l' :
  Scanner_wf s ->
  scan_tokens fuel s l valid_symbols = Some (found, s', l') ->
  Scanner_wf s'.
Proof.
  intros Hwf. unfold scan_tokens.
  assert (H1 : Scanner_wf
                 (snd (fst (if valid_symbols INTERPOLATION_END
                               && in_interpolation s
                            then scan_interpolation_end l s
                            else (false, s, l))))).
  { destruct (valid_symbols INTERPOLATION_END && in_interpolation s);
      [|exact Hwf].
    unfold scan_interpolation_end.
    destruct (in_interpolation s && (lookahead l =? RBRACE)); [|exact Hwf].
    simpl. destruct (uint8_decr (interpolation_depth s) =? 0); simpl;
      apply uint8_decr_range. }
  destruct (if valid_symbols INTERPOLATION_END && in_interpolation s
            then scan_interpolation_end l s else (false, s, l))
    as [[f1 s1] l1].
  simpl in H1. destruct f1.
  - intros H. inversion H; subst. assumption.
  - set (s2 := if in_interpolation s1
               then if lookahead l1 =? LBRACE
                    then set_interpolation_depth s1
                           (uint8_incr (interpolation_depth s1))
                    else s1
               else s1).
    assert (H2 : Scanner_wf s2).
    { subst s2. destruct (in_interpolation s1); [|assumption].
      destruct (lookahead l1 =? LBRACE); [|assumption].
      apply uint8_incr_range. }
    destruct (valid_symbols STRING_CONTENT && in_string s2).
    + intros H. apply string_content_loop_result in H.
      destruct H as [(-> & _) | (-> & _)]; [assumption|].
      unfold Scanner_wf, uint8_range. simpl. lia.
    + intros H. inversion H; subst. assumption.
Qed.

Lemma reachable_wf (iswspace : Z -> bool) (s : Scanner) :
  reachable iswspace s -> Scanner_wf s.
Proof.
  induction 1 as [|s fuel l v found s' l' _ IH Hscan|s h _ IH|h buf Hlen
                  |s b _ IH].
  - unfold Scanner_wf, uint8_range. simpl. lia.
  - unfold scan in Hscan.
    destruct (skip_whitespace iswspace fuel l) as [l1|]; [|discriminate].
    now apply (scan_tokens_wf fuel s l1 v found s' l').
  - apply deserialize_wf.
  - apply deserialize_wf.
  - exact IH.
Qed.

(** C4.  For every reachable state [serialize] writes exactly three
    bytes, the two flags as 0 or 1 followed by the depth, and
    [deserialize] of these bytes gives the state back.  (The same holds
    of every state whose depth is a [uint8_t] value:
    [codec_roundtrip_wf].) *)
Theorem serialize_deserialize_roundtrip :
  forall (iswspace : Z -> bool) (s handle : Scanner),
    reachable iswspace s ->
    length (serialize s) = 3%nat
    /\ map Byte.to_N (serialize s)
       = [ N.b2n (in_string s); N.b2n (in_interpolation s);
           Z.to_N (interpolation_depth s) ]
    /\ deserialize handle (serialize s) = s.
Proof.
  intros iswspace s handle Hr.
  apply codec_roundtrip_wf. now apply (reachable_wf iswspace).
Qed.

Lemma serialize_deserialize_roundtrip_witness :
  reachable iswspace_C (mkScanner true true 1)
  /\ map Byte.to_N (serialize (mkScanner true true 1)) = [1; 1; 1]%N
  /\ deserialize create (serialize (mkScanner true true 1))
     = mkScanner true true 1.
Proof.
  split; [exact reachable_in_interpolation|].
  exact (proj2 (serialize_deserialize_roundtrip iswspace_C
                  (mkScanner true true 1) create
                  reachable_in_interpolation)).
Defined.

(** ** Escapes *)

Lemma rest_backslash (l : TSLexer) :
  lookahead l = BACKSLASH ->
  exists r0, rest l = BACKSLASH :: r0
             /\ advance l
                = mkLexer (skipped l) (token l ++ [BACKSLASH]) r0
                    (result_symbol l).
Proof.
  intros Hl. destruct (lookahead_nonzero l) as (r0 & Hr0).
  - rewrite Hl. discriminate.
  - rewrite Hl in Hr0. exists r0. split; [assumption|].
    now apply advance_cons.
Qed.

Lemma string_content_iter_backslash (l : TSLexer) (s : Scanner) (h : bool) :
  lookahead l = BACKSLASH ->
  string_content_iter l s h
  = if negb (at_end (advance l)) then Continue (advance (advance l)) true
    else Continue (advance l) h.
Proof.
  intros Hl. destruct (rest_backslash l Hl) as (r0 & Hr0 & _).
  unfold string_content_iter.
  rewrite (at_end_cons l _ _ Hr0), Hl. reflexivity.
Qed.

(** C6, as stated, fails: a NUL after the backslash is a character of
    the input, not its end, and the iteration consumes the backslash
    alone; a call that starts there reports no token. *)
Lemma escaped_nul_is_not_consumed :
  string_content_iter (lexer_at [BACKSLASH; NUL; 97])
    (mkScanner true false 0) false
  = Continue (mkLexer [] [BACKSLASH] [NUL; 97] None) false
  /\ scan iswspace_C 4 (mkScanner true false 0)
       (lexer_at [BACKSLASH; NUL; 97]) only_string_content
     = Some (false, mkScanner true false 0,
             mkLexer [] [BACKSLASH] [NUL; 97] None)
  /\ ~ escape_consumes_any_character.
Proof.
  split; [reflexivity|]. split; [reflexivity|].
  intros H.
  specialize (H (lexer_at [BACKSLASH; NUL; 97]) (mkScanner true false 0)
                false NUL [97] eq_refl).
  discriminate H.
Qed.

(** C6, amended.  When the loop is at a backslash and a character other
    than NUL follows it, one iteration consumes the backslash and that
    character, whatever it is (quote, backslash and dollar included), as
    two characters of content and goes round the loop again: the escaped
    character neither ends the loop nor opens an interpolation.  When
    the character that follows is a NUL, which the source takes for the
    end of the input, the iteration consumes the backslash alone and
    leaves [has_content] as it was. *)
Theorem escape_consumes_two_characters :
  forall (l : TSLexer) (s : Scanner) (h : bool) (c : Z) (r : list Z),
    rest l = BACKSLASH :: c :: r ->
    (c <> NUL ->
       string_content_iter l s h
       = Continue (mkLexer (skipped l) (token l ++ [BACKSLASH; c]) r
                     (result_symbol l)) true
       /\ forall fuel,
            string_content_loop (S fuel) l s h
            = string_content_loop fuel
                (mkLexer (skipped l) (token l ++ [BACKSLASH; c]) r
                   (result_symbol l)) s true)
    /\ (c = NUL ->
        string_content_iter l s h
        = Continue (mkLexer (skipped l) (token l ++ [BACKSLASH]) (NUL :: r)
                      (result_symbol l)) h).
Proof.
  intros l s h c r Hr.
  pose proof (lookahead_cons l _ _ Hr) as Hl.
  pose proof (advance_cons l _ _ Hr) as Hadv.
  assert (Hend : at_end (advance l) = (c =? NUL)).
  { rewrite Hadv. apply (at_end_cons _ c r). reflexivity. }
  split.
  - intros Hc. apply Z.eqb_neq in Hc.
    assert (Hiter : string_content_iter l s h
                    = Continue (mkLexer (skipped l)
                                  (token l ++ [BACKSLASH; c]) r
                                  (result_symbol l)) true).
    { rewrite (string_content_iter_backslash l s h Hl), Hend, Hc. simpl.
      rewrite Hadv.
      rewrite (advance_cons
                 (mkLexer (skipped l) (token l ++ [BACKSLASH]) (c :: r)
                    (result_symbol l)) c r eq_refl).
      simpl. rewrite <- app_assoc. reflexivity. }
    split; [exact Hiter|].
    intros fuel. simpl. rewrite Hiter. reflexivity.
  - intros ->.
    rewrite (string_content_iter_backslash l s h Hl), Hend. simpl.
    rewrite Hadv. reflexivity.
Qed.

Lemma escape_consumes_two_characters_witness :
  (string_content_iter (lexer_at [92; 36; 123; 34])
     (mkScanner true false 0) false
   = Continue (mkLexer [] [92; 36] [123; 34] None) true
   /\ forall fuel,
        string_content_loop (S fuel) (lexer_at [92; 36; 123; 34])
          (mkScanner true false 0) false
        = string_content_loop fuel (mkLexer [] [92; 36] [123; 34] None)
            (mkScanner true false 0) true)
  /\ string_content_iter (mkLexer [] [97] [92; 0; 98] None)
       (mkScanner true false 0) true
     = Continue (mkLexer [] [97; 92] [0; 98] None) true.
Proof.
  split.
  - apply (proj1 (escape_consumes_two_characters
                    (lexer_at [92; 36; 123; 34]) (mkScanner true false 0)
                    false 36 [123; 34] eq_refl)).
    discriminate.
  - exact (proj2 (escape_consumes_two_characters
                    (mkLexer [] [97] [92; 0; 98] None)
                    (mkScanner true false 0) true 0 [98] eq_refl)
             eq_refl).
Defined.

(** An escaped dollar before a brace opens no interpolation, and an
    escaped quote does not end the content. *)
Example escaped_dollar_brace :
  scan iswspace_C 5 (mkScanner true false 0) (lexer_at [92; 36; 123; 34])
    only_string_content
  = Some (true, mkScanner true false 0,
          mkLexer [] [92; 36; 123] [34] (Some STRING_CONTENT)).
Proof. reflexivity. Qed.

Example escaped_quote :
  scan iswspace_C 5 (mkScanner true false 0) (lexer_at [92; 34; 97; 34])
    only_string_content
  = Some (true, mkScanner true false 0,
          mkLexer [] [92; 34; 97] [34] (Some STRING_CONTENT)).
Proof. reflexivity. Qed.

(** C7, as stated, fails: on an input of one backslash the call consumes
    the backslash and returns no token. *)
Lemma lone_backslash_gives_no_token :
  scan iswspace_C 2 (mkScanner true false 0) (lexer_at [BACKSLASH])
    only_string_content
  = Some (false, mkScanner true false 0, mkLexer [] [BACKSLASH] [] None)
  /\ ~ lone_backslash_is_content iswspace_C.
Proof.
  split; [reflexivity|].
  intros H.
  destruct (H (mkScanner true false 0) only_string_content 2%nat
              eq_refl eq_refl) as (s' & l' & E & _); [lia|].
  discriminate E.
Qed.

(** C7, amended.  When the end-of-input test of the source holds after a
    backslash, the iteration consumes the backslash alone and leaves
    [has_content] as it was; the loop then stops, and reports
    StringContent, its span ending with the backslash, exactly when
    content had been accumulated before.  A call that starts at such a
    backslash consumes it and returns no token. *)
Theorem trailing_backslash_sets_no_content :
  forall (iswspace : Z -> bool) (l : TSLexer) (s : Scanner)
         (valid_symbols : TokenType -> bool) (fuel : nat),
    lookahead l = BACKSLASH ->
    at_end (advance l) = true ->
    (forall h, string_content_iter l s h = Continue (advance l) h)
    /\ token (advance l) = token l ++ [BACKSLASH]
    /\ rest (advance l) = tl (rest l)
    /\ (forall h,
          string_content_loop (S (S fuel)) l s h
          = Some (if h
                  then (true, s, set_result_symbol (advance l) STRING_CONTENT)
                  else (false, s, advance l)))
    /\ (iswspace BACKSLASH = false ->
        in_string s = true ->
        valid_symbols STRING_CONTENT = true ->
        scan iswspace (S (S fuel)) s l valid_symbols
        = Some (false, s, advance l)).
Proof.
  intros iswspace l s v fuel Hl Hend.
  destruct (rest_backslash l Hl) as (r0 & Hr0 & Hadv).
  assert (Hiter : forall h, string_content_iter l s h = Continue (advance l) h).
  { intros h. rewrite (string_content_iter_backslash l s h Hl), Hend.
    reflexivity. }
  assert (Hstop : forall h, string_content_iter (advance l) s h = Break).
  { intros h. unfold string_content_iter. rewrite Hend. reflexivity. }
  assert (Hloop : forall h,
             string_content_loop (S (S fuel)) l s h
             = Some (if h
                     then (true, s,
                           set_result_symbol (advance l) STRING_CONTENT)
                     else (false, s, advance l))).
  { intros h. simpl. rewrite Hiter, Hstop. destruct h; reflexivity. }
  split; [exact Hiter|].
  split; [rewrite Hadv; reflexivity|].
  split; [rewrite Hadv, Hr0; reflexivity|].
  split; [exact Hloop|].
  intros Hws Hstr Hv. unfold scan.
  change (skip_whitespace iswspace (S (S fuel)) l)
    with (if iswspace (lookahead l)
          then skip_whitespace iswspace (S fuel) (skip l) else Some l).
  rewrite Hl, Hws. unfold scan_tokens.
  assert (Hend' : scan_interpolation_end l s = (false, s, l)).
  { unfold scan_interpolation_end. rewrite Hl. simpl.
    rewrite andb_false_r. reflexivity. }
  rewrite Hend'.
  destruct (v INTERPOLATION_END && in_interpolation s);
    cbv beta iota; rewrite Hl; change (BACKSLASH =? LBRACE) with false;
    destruct (in_interpolation s); rewrite Hv, Hstr; simpl andb;
    cbv iota; unfold scan_string_content; rewrite Hloop; reflexivity.
Qed.

Lemma trailing_backslash_sets_no_content_witness :
  lookahead (lexer_at [92]) = BACKSLASH
  /\ at_end (advance (lexer_at [92])) = true
  /\ string_content_loop 2 (lexer_at [92]) (mkScanner true false 0) true
     = Some (true, mkScanner true false 0,
             mkLexer [] [92] [] (Some STRING_CONTENT))
  /\ scan iswspace_C 2 (mkScanner true false 0) (lexer_at [92])
       only_string_content
     = Some (false, mkScanner true false 0, mkLexer [] [92] [] None).
Proof.
  pose proof (trailing_backslash_sets_no_content iswspace_C
                (lexer_at [92]) (mkScanner true false 0)
                only_string_content 0%nat eq_refl eq_refl)
    as (_ & _ & _ & Hloop & Hscan).
  split; [reflexivity|]. split; [reflexivity|]. split.
  - exact (Hloop true).
  - exact (Hscan eq_refl eq_refl eq_refl).
Defined.

(** ** Interpolation end *)

Lemma scan_interpolation_end_at_brace (l : TSLexer) (s : Scanner) :
  in_interpolation s = true ->
  lookahead l = RBRACE ->
  scan_interpolation_end l s
  = if uint8_decr (interpolation_depth s) =? 0
    then (true, mkScanner (in_string s) false 0,
          set_result_symbol (advance l) INTERPOLATION_END)
    else (false,
          set_interpolation_depth s (uint8_decr (interpolation_depth s)), l).
Proof.
  intros Hi Hl. unfold scan_interpolation_end. rewrite Hi, Hl. simpl.
  destruct (uint8_decr (interpolation_depth s) =? 0) eqn:E; [|reflexivity].
  apply Z.eqb_eq in E. unfold set_in_interpolation. simpl. rewrite E.
  reflexivity.
Qed.

Lemma scan_interpolation_end_elsewhere (l : TSLexer) (s : Scanner) :
  lookahead l <> RBRACE -> scan_interpolation_end l s = (false, s, l).
Proof.
  intros Hl. unfold scan_interpolation_end.
  apply Z.eqb_neq in Hl. rewrite Hl, andb_false_r. reflexivity.
Qed.

Lemma skip_whitespace_none (iswspace : Z -> bool) (fuel : nat) (l : TSLexer) :
  iswspace (lookahead l) = false ->
  skip_whitespace iswspace (S fuel) l = Some l.
Proof. intros H. simpl. rewrite H. reflexivity. Qed.

(** C3, as stated, fails: with StringContent accepted inside a string, a
    closing brace that leaves the depth positive is consumed by the same
    call as string content. *)
Lemma closing_brace_scanned_as_content :
  scan iswspace_C 3 (mkScanner true true 2) (lexer_at [RBRACE; QUOTE])
    every_symbol
  = Some (true, mkScanner true true 1,
          mkLexer [] [RBRACE] [QUOTE] (Some STRING_CONTENT))
  /\ ~ positive_depth_returns_no_token iswspace_C.
Proof.
  split; [reflexivity|].
  intros H.
  specialize (H (mkScanner true true 2) every_symbol
                (lexer_at [RBRACE; QUOTE]) 3%nat eq_refl eq_refl eq_refl).
  assert (E : scan iswspace_C 3 (mkScanner true true 2)
                (lexer_at [RBRACE; QUOTE]) every_symbol
              = Some (false,
                      set_interpolation_depth (mkScanner true true 2)
                        (uint8_decr 2),
                      lexer_at [RBRACE; QUOTE])).
  { apply H; [discriminate|simpl; lia]. }
  discriminate E.
Qed.

(** C3, amended.  At a closing brace inside an interpolation, matching
    decrements the depth modulo 256; at zero it consumes the brace,
    clears [in_interpolation] and reports InterpolationEnd, otherwise it
    consumes nothing and reports no token, the decrement staying in the
    state.  Away from a closing brace it reports no token and changes
    nothing.  A call with InterpolationEnd accepted that starts at the
    brace returns InterpolationEnd spanning the brace in the first case;
    in the second it goes on with the decremented state, and returns no
    token unless StringContent is accepted and [in_string] is set, when
    string-content scanning runs from the brace. *)
Theorem interpolation_end_matching :
  forall (iswspace : Z -> bool) (s : Scanner) (l : TSLexer)
         (valid_symbols : TokenType -> bool) (fuel : nat),
    (lookahead l <> RBRACE -> scan_interpolation_end l s = (false, s, l))
    /\ (in_interpolation s = true ->
        lookahead l = RBRACE ->
        (uint8_decr (interpolation_depth s) = 0 ->
           scan_interpolation_end l s
           = (true, mkScanner (in_string s) false 0,
              mkLexer (skipped l) (token l ++ [RBRACE]) (tl (rest l))
                (Some INTERPOLATION_END)))
        /\ (uint8_decr (interpolation_depth s) <> 0 ->
            scan_interpolation_end l s
            = (false,
               set_interpolation_depth s
                 (uint8_decr (interpolation_depth s)), l)))
    /\ (valid_symbols INTERPOLATION_END = true ->
        in_interpolation s = true ->
        lookahead l = RBRACE ->
        iswspace RBRACE = false ->
        token l = [] ->
        (uint8_decr (interpolation_depth s) = 0 ->
           scan iswspace (S fuel) s l valid_symbols
           = Some (true, mkScanner (in_string s) false 0,
                   mkLexer (skipped l) [RBRACE] (tl (rest l))
                     (Some INTERPOLATION_END)))
        /\ (uint8_decr (interpolation_depth s) <> 0 ->
            scan iswspace (S fuel) s l valid_symbols
            = if valid_symbols STRING_CONTENT && in_string s
              then scan_string_content (S fuel) l
                     (set_interpolation_depth s
                        (uint8_decr (interpolation_depth s)))
              else Some (false,
                         set_interpolation_depth s
                           (uint8_decr (interpolation_depth s)), l))).
Proof.
  intros iswspace s l v fuel.
  assert (Hzero : in_interpolation s = true -> lookahead l = RBRACE ->
                  uint8_decr (interpolation_depth s) = 0 ->
                  scan_interpolation_end l s
                  = (true, mkScanner (in_string s) false 0,
                     mkLexer (skipped l) (token l ++ [RBRACE]) (tl (rest l))
                       (Some INTERPOLATION_END))).
  { intros Hi Hl Hz. rewrite (scan_interpolation_end_at_brace l s Hi Hl), Hz.
    simpl. destruct (lookahead_nonzero l) as (r & Hr).
    - rewrite Hl. discriminate.
    - rewrite Hl in Hr. rewrite (advance_cons l _ _ Hr), Hr. reflexivity. }
  assert (Hpos : in_interpolation s = true -> lookahead l = RBRACE ->
                 uint8_decr (interpolation_depth s) <> 0 ->
                 scan_interpolation_end l s
                 = (false,
                    set_interpolation_depth s
                      (uint8_decr (interpolation_depth s)), l)).
  { intros Hi Hl Hz. rewrite (scan_interpolation_end_at_brace l s Hi Hl).
    apply Z.eqb_neq in Hz. rewrite Hz. reflexivity. }
  split; [apply scan_interpolation_end_elsewhere|].
  split; [intros Hi Hl; split; auto|].
  intros Hv Hi Hl Hws Htok.
  assert (Hskip : skip_whitespace iswspace (S fuel) l = Some l).
  { apply skip_whitespace_none. now rewrite Hl. }
  split; intros Hz; unfold scan; rewrite Hskip; unfold scan_tokens;
    rewrite Hv, Hi; simpl andb; cbv iota.
  - rewrite (Hzero Hi Hl Hz), Htok. reflexivity.
  - rewrite (Hpos Hi Hl Hz). cbv beta iota.
    unfold set_interpolation_depth at 1. simpl in_interpolation.
    rewrite Hi, Hl. change (RBRACE =? LBRACE) with false. cbv iota.
    reflexivity.
Qed.

Lemma interpolation_end_matching_witness :
  scan_interpolation_end (lexer_at [97; 125]) (mkScanner true true 1)
  = (false, mkScanner true true 1, lexer_at [97; 125])
  /\ scan_interpolation_end (lexer_at [125; 34]) (mkScanner true true 1)
     = (true, mkScanner true false 0,
        mkLexer [] [125] [34] (Some INTERPOLATION_END))
  /\ scan_interpolation_end (lexer_at [125; 34]) (mkScanner true true 0)
     = (false, mkScanner true true 255, lexer_at [125; 34])
  /\ scan iswspace_C 3 (mkScanner true true 1) (lexer_at [125; 34])
       every_symbol
     = Some (true, mkScanner true false 0,
             mkLexer [] [125] [34] (Some INTERPOLATION_END))
  /\ scan iswspace_C 3 (mkScanner false true 2) (lexer_at [125; 34])
       every_symbol
     = Some (false, mkScanner false true 1, lexer_at [125; 34]).
Proof.
  split; [|split; [|split; [|split]]].
  - apply (proj1 (interpolation_end_matching iswspace_C
                    (mkScanner true true 1) (lexer_at [97; 125])
                    every_symbol 2)).
    discriminate.
  - apply (proj1 (proj2 (interpolation_end_matching iswspace_C
                    (mkScanner true true 1) (lexer_at [125; 34])
                    every_symbol 2)) eq_refl eq_refl).
    reflexivity.
  - apply (proj1 (proj2 (interpolation_end_matching iswspace_C
                    (mkScanner true true 0) (lexer_at [125; 34])
                    every_symbol 2)) eq_refl eq_refl).
    discriminate.
  - apply (proj2 (proj2 (interpolation_end_matching iswspace_C
                    (mkScanner true true 1) (lexer_at [125; 34])
                    every_symbol 2)) eq_refl eq_refl eq_refl eq_refl eq_refl).
    reflexivity.
  - apply (proj2 (proj2 (interpolation_end_matching iswspace_C
                    (mkScanner false true 2) (lexer_at [125; 34])
                    every_symbol 2)) eq_refl eq_refl eq_refl eq_refl eq_refl).
    discriminate.
Defined.

(** ** Plain string content *)

Lemma skip_whitespace_run (iswspace : Z -> bool) (ws : list Z) :
  forall (l : TSLexer) (c : Z) (r : list Z) (fuel : nat),
    token l = [] ->
    rest l = ws ++ c :: r ->
    forallb iswspace ws = true ->
    iswspace c = false ->
    (length ws < fuel)%nat ->
    skip_whitespace iswspace fuel l
    = Some (mkLexer (skipped l ++ ws) [] (c :: r) (result_symbol l)).
Proof.
  induction ws as [|w ws IH]; intros l c r fuel Htok Hrest Hall Hc Hfuel;
    (destruct fuel as [|fuel]; [simpl in Hfuel; lia|]); simpl in Hrest.
  - simpl. rewrite (lookahead_cons l c r Hrest), Hc.
    destruct l as [sk tk rs sym]. simpl in *. subst.
    rewrite app_nil_r. reflexivity.
  - simpl in Hall. apply andb_true_iff in Hall. destruct Hall as [Hw Hall].
    simpl. rewrite (lookahead_cons l w _ Hrest), Hw.
    rewrite (skip_cons l w _ Hrest), Htok. simpl app.
    rewrite (IH (mkLexer (skipped l ++ [w]) [] (ws ++ c :: r)
                   (result_symbol l)) c r fuel eq_refl eq_refl Hall Hc)
      by (simpl in Hfuel; lia).
    simpl. rewrite <- app_assoc. reflexivity.
Qed.

Lemma string_content_iter_stop (l : TSLexer) (s : Scanner) (h : bool) :
  stops_loop (rest l) -> string_content_iter l s h = Break.
Proof.
  unfold stops_loop, string_content_iter. destruct (rest l) as [|c r] eqn:E.
  - intros _. rewrite (at_end_nil l E). reflexivity.
  - intros [-> | ->].
    + rewrite (at_end_cons l _ _ E). reflexivity.
    + rewrite (at_end_cons l _ _ E), (lookahead_cons l _ _ E). reflexivity.
Qed.

Lemma string_content_iter_plain (l : TSLexer) (s : Scanner) (h : bool)
    (c : Z) (r : list Z) :
  rest l = c :: r ->
  plain c = true ->
  string_content_iter l s h
  = Continue (mkLexer (skipped l) (token l ++ [c]) r (result_symbol l)) true.
Proof.
  intros Hr Hc. unfold plain, no_quote_backslash_dollar in Hc.
  repeat (apply andb_true_iff in Hc; destruct Hc as [Hc ?]).
  unfold string_content_iter.
  rewrite (at_end_cons l c r Hr), (lookahead_cons l c r Hr),
    (advance_cons l c r Hr).
  repeat match goal with
         | H : negb ?b = true |- _ =>
             apply negb_true_iff in H; rewrite H
         end.
  reflexivity.
Qed.

Lemma string_content_loop_plain (content : list Z) :
  forall (l : TSLexer) (s : Scanner) (h : bool) (stop : list Z) (fuel : nat),
    rest l = content ++ stop ->
    forallb plain content = true ->
    stops_loop stop ->
    (length content < fuel)%nat ->
    string_content_loop fuel l s h
    = Some (if h || negb (Nat.eqb (length content) 0)
            then (true, s,
                  mkLexer (skipped l) (token l ++ content) stop
                    (Some STRING_CONTENT))
            else (false, s, l)).
Proof.
  induction content as [|c content IH];
    intros l s h stop fuel Hrest Hall Hstop Hfuel;
    (destruct fuel as [|fuel]; [simpl in Hfuel; lia|]); simpl in Hrest.
  - simpl. rewrite string_content_iter_stop by (rewrite Hrest; exact Hstop).
    rewrite orb_false_r, app_nil_r. destruct h; [|reflexivity].
    unfold set_result_symbol. rewrite Hrest. reflexivity.
  - simpl in Hall. apply andb_true_iff in Hall. destruct Hall as [Hc Hall].
    cbn [string_content_loop].
    rewrite (string_content_iter_plain l s h c _ Hrest Hc).
    rewrite (IH (mkLexer (skipped l) (token l ++ [c]) (content ++ stop)
                   (result_symbol l)) s true stop fuel eq_refl Hall Hstop)
      by (simpl in Hfuel; lia).
    simpl. rewrite orb_true_r, <- app_assoc. reflexivity.
Qed.

(** What is left of [scan] when interpolation-end matching returns no
    token: the flags are as before and string-content scanning, if it
    runs, starts at the same cursor. *)
Lemma scan_tokens_without_end (fuel : nat) (s : Scanner) (l : TSLexer)
    (valid_symbols : TokenType -> bool) :
  valid_symbols INTERPOLATION_END && in_interpolation s
    && (lookahead l =? RBRACE)
    && (uint8_decr (interpolation_depth s) =? 0) = false ->
  exists s2,
    in_string s2 = in_string s
    /\ in_interpolation s2 = in_interpolation s
    /\ (lookahead l <> RBRACE -> lookahead l <> LBRACE -> s2 = s)
    /\ scan_tokens fuel s l valid_symbols
       = if valid_symbols STRING_CONTENT && in_string s
         then scan_string_content fuel l s2
         else Some (false, s2, l).
Proof.
  intros Hno. unfold scan_tokens.
  assert (Hsame : forall d, in_string (set_interpolation_depth s d)
                            = in_string s) by reflexivity.
  destruct (valid_symbols INTERPOLATION_END && in_interpolation s) eqn:Hvi.
  - apply andb_true_iff in Hvi. destruct Hvi as [Hv Hi].
    destruct (Z.eqb_spec (lookahead l) RBRACE) as [Hr|Hr].
    + simpl in Hno.
      rewrite (scan_interpolation_end_at_brace l s Hi Hr), Hno.
      cbv beta iota. simpl in_interpolation. rewrite Hi, Hr.
      change (RBRACE =? LBRACE) with false. cbv iota.
      eexists. split; [|split; [|split; [|reflexivity]]];
        try reflexivity; try (simpl; assumption).
      intros Hc. contradiction.
    + rewrite (scan_interpolation_end_elsewhere l s Hr).
      cbv beta iota. rewrite Hi.
      destruct (Z.eqb_spec (lookahead l) LBRACE) as [Hb|Hb].
      * eexists. split; [|split; [|split; [|reflexivity]]];
          try reflexivity; try (simpl; assumption).
        intros _ Hc. contradiction.
      * exists s. repeat split; try reflexivity; assumption.
  - cbv beta iota.
    destruct (in_interpolation s) eqn:Hi.
    + destruct (Z.eqb_spec (lookahead l) LBRACE) as [Hb|Hb].
      * eexists. split; [|split; [|split; [|reflexivity]]];
          try reflexivity; try (simpl; assumption).
        intros _ Hc. contradiction.
      * exists s. repeat split; try reflexivity; assumption.
    + exists s. repeat split; try reflexivity; assumption.
Qed.

(** C2, as stated, fails: whitespace at the start of the text is skipped
    and is not part of the token. *)
Lemma leading_whitespace_not_in_span :
  scan iswspace_C 4 (mkScanner true false 0) (lexer_at [32; 97; QUOTE])
    only_string_content
  = Some (true, mkScanner true false 0,
          mkLexer [32] [97] [QUOTE] (Some STRING_CONTENT))
  /\ ~ text_up_to_quote_is_the_span iswspace_C.
Proof.
  split; [reflexivity|].
  intros H.
  destruct (H (mkScanner true false 0) only_string_content [32; 97] []
              4%nat eq_refl eq_refl)
    as (s' & l' & E & _ & Htok & _).
  - discriminate.
  - reflexivity.
  - simpl. lia.
  - inversion E; subst. discriminate Htok.
Qed.

(** C2, amended.  In a call with [in_string] set and StringContent
    accepted, let the input be a run of whitespace, then a non-empty text
    that starts with a non-whitespace character and holds no quote,
    backslash, dollar or NUL, then a quote.  Unless interpolation-end
    matching takes a closing brace at the head of the text as
    InterpolationEnd, the call skips the whitespace, consumes the text
    and returns StringContent spanning exactly the text, the quote left
    unconsumed. *)
Theorem string_content_after_whitespace :
  forall (iswspace : Z -> bool) (s : Scanner)
         (valid_symbols : TokenType -> bool) (l : TSLexer)
         (ws content tl : list Z) (fuel : nat),
    in_string s = true ->
    valid_symbols STRING_CONTENT = true ->
    token l = [] ->
    rest l = ws ++ content ++ QUOTE :: tl ->
    forallb iswspace ws = true ->
    content <> [] ->
    iswspace (hd 0 content) = false ->
    forallb plain content = true ->
    valid_symbols INTERPOLATION_END && in_interpolation s
      && (hd 0 content =? RBRACE)
      && (uint8_decr (interpolation_depth s) =? 0) = false ->
    (length (rest l) < fuel)%nat ->
    exists s',
      scan iswspace fuel s l valid_symbols
      = Some (true, s',
              mkLexer (skipped l ++ ws) content (QUOTE :: tl)
                (Some STRING_CONTENT))
      /\ in_string s' = in_string s
      /\ in_interpolation s' = in_interpolation s.
Proof.
  intros iswspace s v l ws content tl fuel
         Hstr Hv Htok Hrest Hws Hne Hhd Hplain Hno Hfuel.
  destruct content as [|c content]; [contradiction|]. simpl in Hhd, Hno.
  assert (Hlen : length (rest l)
                 = (length ws + S (length content + S (length tl)))%nat).
  { rewrite Hrest. repeat (rewrite length_app; simpl). reflexivity. }
  unfold scan.
  rewrite (skip_whitespace_run iswspace ws l c (content ++ QUOTE :: tl) fuel
             Htok Hrest Hws Hhd) by lia.
  set (l1 := mkLexer (skipped l ++ ws) [] (c :: content ++ QUOTE :: tl)
               (result_symbol l)).
  destruct (scan_tokens_without_end fuel s l1 v Hno)
    as (s2 & Hs2 & Hi2 & _ & E).
  rewrite E, Hv, Hstr. simpl andb. cbv iota.
  unfold scan_string_content.
  rewrite (string_content_loop_plain (c :: content) l1 s2 false
             (QUOTE :: tl) fuel eq_refl Hplain)
    by (simpl; auto; lia).
  exists s2. simpl. repeat split; congruence.
Qed.

Lemma string_content_after_whitespace_witness :
  exists s',
    scan iswspace_C 5 (mkScanner true false 0)
      (lexer_at [32; 97; 98; 34]) only_string_content
    = Some (true, s', mkLexer [32] [97; 98] [34] (Some STRING_CONTENT))
    /\ in_string s' = true
    /\ in_interpolation s' = false.
Proof.
  apply (string_content_after_whitespace iswspace_C (mkScanner true false 0)
           only_string_content (lexer_at [32; 97; 98; 34])
           [32] [97; 98] [] 5%nat);
    try reflexivity.
  - discriminate.
  - simpl. lia.
Defined.

(** A text of whitespace only is skipped and gives no token. *)
Lemma whitespace_only_text_gives_no_token
    (iswspace : Z -> bool) (s : Scanner) (valid_symbols : TokenType -> bool)
    (l : TSLexer) (ws tl : list Z) (fuel : nat) :
  token l = [] ->
  rest l = ws ++ QUOTE :: tl ->
  forallb iswspace ws = true ->
  iswspace QUOTE = false ->
  (length ws + 1 < fuel)%nat ->
  scan iswspace fuel s l valid_symbols
  = Some (false, s,
          mkLexer (skipped l ++ ws) [] (QUOTE :: tl) (result_symbol l)).
Proof.
  intros Htok Hrest Hws Hq Hfuel. unfold scan.
  rewrite (skip_whitespace_run iswspace ws l QUOTE tl fuel
             Htok Hrest Hws Hq) by lia.
  set (l1 := mkLexer (skipped l ++ ws) [] (QUOTE :: tl) (result_symbol l)).
  destruct (scan_tokens_without_end fuel s l1 valid_symbols)
    as (s2 & _ & _ & Heq & E).
  - simpl. rewrite andb_false_r. reflexivity.
  - rewrite E, Heq by discriminate.
    destruct (valid_symbols STRING_CONTENT && in_string s); [|reflexivity].
    unfold scan_string_content.
    rewrite (string_content_loop_plain [] l1 s false (QUOTE :: tl) fuel
               eq_refl eq_refl) by (simpl; auto; lia).
    reflexivity.
Qed.

(** ** The interpolation opener *)

(** At [${] the iteration consumes both characters, opens the
    interpolation at depth 1 and returns InterpolationStart; the token
    runs from the token start, so it holds whatever the call consumed
    before the dollar. *)
Lemma string_content_iter_opener (l : TSLexer) (s : Scanner) (h : bool)
    (r : list Z) :
  rest l = DOLLAR :: LBRACE :: r ->
  string_content_iter l s h
  = Return (true, mkScanner (in_string s) true 1,
            mkLexer (skipped l) (token l ++ [DOLLAR; LBRACE]) r
              (Some INTERPOLATION_START)).
Proof.
  intros Hr. unfold string_content_iter.
  rewrite (at_end_cons l _ _ Hr), (lookahead_cons l _ _ Hr),
    (advance_cons l _ _ Hr).
  simpl. unfold advance, lexer_advance, set_result_symbol. simpl.
  rewrite <- app_assoc. reflexivity.
Qed.

Lemma string_content_loop_opener (content : list Z) :
  forall (l : TSLexer) (s : Scanner) (h : bool) (r : list Z) (fuel : nat),
    rest l = content ++ DOLLAR :: LBRACE :: r ->
    forallb plain content = true ->
    (length content < fuel)%nat ->
    string_content_loop fuel l s h
    = Some (true, mkScanner (in_string s) true 1,
            mkLexer (skipped l) (token l ++ content ++ [DOLLAR; LBRACE]) r
              (Some INTERPOLATION_START)).
Proof.
  induction content as [|c content IH]; intros l s h r fuel Hrest Hall Hfuel;
    (destruct fuel as [|fuel]; [simpl in Hfuel; lia|]); simpl in Hrest.
  - simpl. rewrite (string_content_iter_opener l s h r Hrest). reflexivity.
  - simpl in Hall. apply andb_true_iff in Hall. destruct Hall as [Hc Hall].
    cbn [string_content_loop].
    rewrite (string_content_iter_plain l s h c _ Hrest Hc).
    rewrite (IH (mkLexer (skipped l) (token l ++ [c])
                   (content ++ DOLLAR :: LBRACE :: r) (result_symbol l))
               s true r fuel eq_refl Hall) by (simpl in Hfuel; lia).
    simpl. rewrite <- app_assoc. reflexivity.
Qed.

(** With nothing consumed before it the opener is the whole token. *)
Example interpolation_start_alone :
  scan iswspace_C 3 (mkScanner true false 0) (lexer_at [36; 123; 120; 125; 34])
    only_string_content
  = Some (true, mkScanner true true 1,
          mkLexer [] [36; 123] [120; 125; 34] (Some INTERPOLATION_START)).
Proof. reflexivity. Qed.

(** C1.  The code at the input [a${x}] followed by a quote, inside a
    string: the call consumes [a], [$] and the brace, sets
    [in_interpolation] and depth 1 and returns InterpolationStart, and the
    token spans the three characters [a${], not the two of the opener:
    the literal [a] accumulated in the call is part of it. *)
Theorem interpolation_start_swallows_content :
  scan iswspace_C 7 (mkScanner true false 0)
    (lexer_at [97; DOLLAR; LBRACE; 120; RBRACE; QUOTE]) only_string_content
  = Some (true, mkScanner true true 1,
          mkLexer [] [97; DOLLAR; LBRACE] [120; RBRACE; QUOTE]
            (Some INTERPOLATION_START)).
Proof. reflexivity. Qed.

(** ** Scenarios *)

(** Content up to the closing quote, the quote left in the input. *)
Example scenario_abc :
  scan iswspace_C 5 (mkScanner true false 0) (lexer_at [97; 98; 99; 34])
    only_string_content
  = Some (true, mkScanner true false 0,
          mkLexer [] [97; 98; 99] [34] (Some STRING_CONTENT)).
Proof. reflexivity. Qed.

(** An unterminated literal still gives its content. *)
Example scenario_unterminated :
  scan iswspace_C 4 (mkScanner true false 0) (lexer_at [97; 98; 99])
    only_string_content
  = Some (true, mkScanner true false 0,
          mkLexer [] [97; 98; 99] [] (Some STRING_CONTENT)).
Proof. reflexivity. Qed.

(** An empty literal gives no token. *)
Example scenario_empty :
  scan iswspace_C 3 (mkScanner true false 0) (lexer_at [34; 34])
    only_string_content
  = Some (false, mkScanner true false 0, lexer_at [34; 34]).
Proof. reflexivity. Qed.

(** Braces nested in an interpolation: the inner pair moves the depth to
    2 and back to 1 without a token, the last brace ends the
    interpolation. *)
Example scenario_nested_braces :
  let only_end t := TokenType_eqb t INTERPOLATION_END in
  scan iswspace_C 4 (mkScanner true true 1) (lexer_at [123; 49; 125; 125])
    only_end
  = Some (false, mkScanner true true 2, lexer_at [123; 49; 125; 125])
  /\ scan iswspace_C 4 (mkScanner true true 2) (lexer_at [125; 125]) only_end
     = Some (false, mkScanner true true 1, lexer_at [125; 125])
  /\ scan iswspace_C 4 (mkScanner true true 1) (lexer_at [125]) only_end
     = Some (true, mkScanner true false 0,
             mkLexer [] [125] [] (Some INTERPOLATION_END)).
Proof. repeat split. Qed.

(** * Further properties of the scanner *)

(** ** The cursor only moves forward over the input *)

Lemma consumes_refl (l : TSLexer) : consumes l l [].
Proof.
  unfold consumes. rewrite app_nil_r. auto.
Qed.

Lemma consumes_trans (l l1 l2 : TSLexer) (a b : list Z) :
  consumes l l1 a -> consumes l1 l2 b -> consumes l l2 (a ++ b).
Proof.
  unfold consumes. intros (Hk & Ht & Hr) (Hk' & Ht' & Hr').
  repeat split.
  - congruence.
  - rewrite Ht', Ht. now rewrite app_assoc.
  - rewrite Hr, Hr'. now rewrite app_assoc.
Qed.

Lemma consumes_advance (l : TSLexer) :
  consumes l (advance l) (firstn 1 (rest l)).
Proof.
  unfold consumes, advance, lexer_advance.
  destruct (rest l) as [|c r] eqn:E; simpl.
  - rewrite E, app_nil_r. auto.
  - auto.
Qed.

Lemma consumes_advance_cons (l : TSLexer) :
  rest l <> [] -> exists c, consumes l (advance l) [c] /\ lookahead l = c.
Proof.
  intros Hne. pose proof (consumes_advance l) as H. unfold lookahead.
  destruct (rest l) as [|c r]; [contradiction|].
  exists c. split; [exact H|reflexivity].
Qed.

Lemma consumes_set_result_symbol (l l' : TSLexer) (a : list Z)
    (t : TokenType) :
  consumes l l' a -> consumes l (set_result_symbol l' t) a.
Proof. unfold consumes. simpl. auto. Qed.

Lemma advance_set_result_symbol (l : TSLexer) (t : TokenType) :
  advance (set_result_symbol l t) = set_result_symbol (advance l) t.
Proof.
  unfold advance, lexer_advance, set_result_symbol. simpl.
  destruct (rest l) eqn:E; simpl; rewrite ?E; reflexivity.
Qed.

Lemma consumes_text (l l' : TSLexer) (a : list Z) :
  consumes l l' a -> lexer_text l' = lexer_text l.
Proof.
  unfold consumes, lexer_text. intros (Hk & Ht & Hr).
  rewrite Hk, Ht, Hr, <- app_assoc. reflexivity.
Qed.

Lemma at_end_false_rest (l : TSLexer) : at_end l = false -> rest l <> [].
Proof.
  intros H. destruct (at_end_false l H) as (c & r & Hr & _).
  rewrite Hr. discriminate.
Qed.

Lemma lookahead_rest (l : TSLexer) (c : Z) :
  c <> 0 -> lookahead l = c -> rest l <> [].
Proof.
  intros Hc Hl. destruct (lookahead_nonzero l) as (r & Hr).
  - now rewrite Hl.
  - rewrite Hr. discriminate.
Qed.

Lemma app_cons_not_nil_l (c : Z) (b : list Z) : [c] ++ b <> [].
Proof. discriminate. Qed.

(** What one iteration of the string-content loop can do. *)
Lemma string_content_iter_facts (l : TSLexer) (s : Scanner) (h : bool) :
  match string_content_iter l s h with
  | Break => stops_loop (rest l)
  | Return (found, s', l') =>
      found = true
      /\ s' = mkScanner (in_string s) true 1
      /\ result_symbol l' = Some INTERPOLATION_START
      /\ exists a, a <> [] /\ consumes l l' a
  | Continue l' h' => exists a, a <> [] /\ consumes l l' a
  end.
Proof.
  unfold string_content_iter.
  destruct (at_end l) eqn:Hend.
  { unfold stops_loop. unfold at_end, lookahead, eof in Hend.
    destruct (rest l) as [|c r]; [exact I|].
    rewrite orb_false_r in Hend. apply Z.eqb_eq in Hend. now left. }
  pose proof (at_end_false_rest l Hend) as Hne.
  destruct (Z.eqb_spec (lookahead l) QUOTE) as [Hq|Hq].
  { unfold stops_loop. unfold lookahead in Hq.
    destruct (rest l) as [|c r]; [exact I|]. now right. }
  destruct (consumes_advance_cons l Hne) as (c & Hc & _).
  assert (Htwo : exists a, a <> [] /\ consumes l (advance (advance l)) a).
  { exists ([c] ++ firstn 1 (rest (advance l))).
    split; [apply app_cons_not_nil_l|].
    apply (consumes_trans l (advance l)); [exact Hc|].
    apply consumes_advance. }
  assert (Hone : exists a, a <> [] /\ consumes l (advance l) a).
  { exists [c]. split; [discriminate|exact Hc]. }
  destruct (lookahead l =? BACKSLASH).
  - destruct (negb (at_end (advance l))); assumption.
  - destruct (lookahead l =? DOLLAR); [|assumption].
    destruct (lookahead (advance l) =? LBRACE); [|assumption].
    split; [reflexivity|]. split; [reflexivity|].
    rewrite advance_set_result_symbol. split; [reflexivity|].
    destruct Htwo as (a & Ha & Hcons). exists a.
    split; [exact Ha|]. now apply consumes_set_result_symbol.
Qed.

(** What the string-content loop can do. *)
Lemma string_content_loop_facts (fuel : nat) :
  forall (l : TSLexer) (s : Scanner) (h : bool) found s' l',
    string_content_loop fuel l s h = Some (found, s', l') ->
    (exists a, consumes l l' a
               /\ (h = false -> found = true -> a <> []))
    /\ ((s' = s /\ stops_loop (rest l')
         /\ (found = true -> result_symbol l' = Some STRING_CONTENT))
        \/ (s' = mkScanner (in_string s) true 1 /\ found = true
            /\ result_symbol l' = Some INTERPOLATION_START)).
Proof.
  induction fuel as [|fuel IH]; intros l s h found s' l' H;
    [discriminate|].
  simpl in H. pose proof (string_content_iter_facts l s h) as F.
  destruct (string_content_iter l s h) as [|[[f1 s1] l1]|l1 h1].
  - destruct h; inversion H; subst.
    + split.
      * exists []. split; [|discriminate].
        apply consumes_set_result_symbol, consumes_refl.
      * left. repeat split; auto.
    + split.
      * exists []. split; [apply consumes_refl|discriminate].
      * left. repeat split; auto. discriminate.
  - destruct F as (-> & -> & Hsym & a & Ha & Hcons).
    inversion H; subst. split; [|right; auto].
    exists a. split; auto.
  - destruct F as (a & Ha & Hcons).
    destruct (IH _ _ _ _ _ _ H) as ((b & Hb & _) & Hr).
    split.
    + exists (a ++ b). split; [now apply (consumes_trans l l1)|].
      intros _ _ E. apply app_eq_nil in E. destruct E as [E _].
      contradiction.
    + exact Hr.
Qed.

(** What the whitespace loop can do: it skips a run of whitespace and
    stops in front of a character that is none. *)
Lemma skip_whitespace_facts (iswspace : Z -> bool) (fuel : nat) :
  forall (l l' : TSLexer),
    skip_whitespace iswspace fuel l = Some l' ->
    exists ws,
      rest l = ws ++ rest l'
      /\ forallb iswspace ws = true
      /\ iswspace (lookahead l') = false
      /\ lexer_text l' = lexer_text l
      /\ (ws = [] -> l' = l)
      /\ (token l = [] -> token l' = [] /\ skipped l' = skipped l ++ ws).
Proof.
  induction fuel as [|fuel IH]; intros l l' H; [discriminate|].
  simpl in H. destruct (iswspace (lookahead l)) eqn:Hws.
  - destruct (rest l) as [|c r] eqn:E.
    + assert (Hsk : skip l = l)
        by (unfold skip, lexer_advance; now rewrite E).
      rewrite Hsk in H. pose proof (IH _ _ H) as IHl.
      rewrite E in IHl. exact IHl.
    + destruct (IH _ _ H) as (ws & Hr & Hall & Hl & Hx & _ & Ht).
      rewrite (skip_cons l c r E) in *.
      exists (c :: ws). simpl in *.
      assert (Hc : lookahead l = c) by (unfold lookahead; now rewrite E).
      repeat split.
      * now rewrite Hr.
      * rewrite <- Hc, Hws. exact Hall.
      * exact Hl.
      * rewrite Hx. unfold lexer_text. simpl. rewrite E.
        rewrite <- !app_assoc. reflexivity.
      * discriminate.
      * now apply Ht.
      * destruct (Ht eq_refl) as [_ Hsk]. rewrite Hsk.
        match goal with Htok : token l = [] |- _ => rewrite Htok end.
        simpl. rewrite <- app_assoc. reflexivity.
  - inversion H; subst. exists []. repeat split; auto.
    now rewrite app_nil_r.
Qed.

Lemma scan_interpolation_end_facts (l : TSLexer) (s : Scanner) :
  forall found s' l',
    scan_interpolation_end l s = (found, s', l') ->
    in_string s' = in_string s
    /\ (found = true ->
        consumes l l' [RBRACE]
        /\ in_interpolation s = true
        /\ result_symbol l' = Some INTERPOLATION_END
        /\ s' = mkScanner (in_string s) false 0)
    /\ (found = false ->
        l' = l /\ in_interpolation s' = in_interpolation s).
Proof.
  intros found s' l'. unfold scan_interpolation_end.
  destruct (in_interpolation s) eqn:Hi; simpl.
  - destruct (Z.eqb_spec (lookahead l) RBRACE) as [Hr|Hr].
    + destruct (uint8_decr (interpolation_depth s) =? 0) eqn:Hz;
        intros H; inversion H; subst; simpl.
      * apply Z.eqb_eq in Hz.
        split; [reflexivity|]. split; [|discriminate]. intros _.
        split; [|split; [reflexivity|split; [reflexivity|]]].
        -- apply consumes_set_result_symbol.
           destruct (consumes_advance_cons l) as (c & Hc & Hl).
           ++ apply (lookahead_rest l RBRACE); [discriminate|assumption].
           ++ rewrite Hr in Hl. subst c. exact Hc.
        -- unfold set_in_interpolation. simpl. now rewrite Hz.
      * repeat split; auto; discriminate.
    + intros H; inversion H; subst. repeat split; auto; discriminate.
  - intros H; inversion H; subst. repeat split; auto; discriminate.
Qed.

(** What the part of [scan] after the whitespace loop can do. *)
Lemma scan_tokens_facts (fuel : nat) (s : Scanner) (l : TSLexer)
    (valid_symbols : TokenType -> bool) found s' l' :
  scan_tokens fuel s l valid_symbols = Some (found, s', l') ->
  in_string s' = in_string s
  /\ (exists a, consumes l l' a /\ (found = true -> a <> []))
  /\ (found = true ->
      (result_symbol l' = Some INTERPOLATION_END
       /\ valid_symbols INTERPOLATION_END = true
       /\ in_interpolation s = true
       /\ s' = mkScanner (in_string s) false 0)
      \/ (result_symbol l' = Some STRING_CONTENT
          /\ valid_symbols STRING_CONTENT = true
          /\ in_string s = true
          /\ in_interpolation s' = in_interpolation s
          /\ stops_loop (rest l'))
      \/ (result_symbol l' = Some INTERPOLATION_START
          /\ valid_symbols STRING_CONTENT = true
          /\ in_string s = true
          /\ in_interpolation s' = true
          /\ interpolation_depth s' = 1)).
Proof.
  unfold scan_tokens.
  assert (H1 : forall f1 s1 l1,
             (if valid_symbols INTERPOLATION_END && in_interpolation s
              then scan_interpolation_end l s else (false, s, l))
             = (f1, s1, l1) ->
             in_string s1 = in_string s
             /\ (f1 = true ->
                 consumes l l1 [RBRACE]
                 /\ result_symbol l1 = Some INTERPOLATION_END
                 /\ valid_symbols INTERPOLATION_END = true
                 /\ in_interpolation s = true
                 /\ s1 = mkScanner (in_string s) false 0)
             /\ (f1 = false ->
                 l1 = l /\ in_interpolation s1 = in_interpolation s)).
  { intros f1 s1 l1.
    destruct (valid_symbols INTERPOLATION_END) eqn:Hv; simpl.
    - destruct (in_interpolation s) eqn:Hi.
      + intros E. apply scan_interpolation_end_facts in E.
        destruct E as (Hs & Ht & Hf).
        split; [exact Hs|]. split.
        * intros Hf1. destruct (Ht Hf1) as (Hc & _ & Hsym & Hs1). auto.
        * intros Hf1. destruct (Hf Hf1) as [Hl Hi1]. split; congruence.
      + intros E. inversion E; subst.
        split; [reflexivity|]. split; [discriminate|auto].
    - intros E. inversion E; subst.
      split; [reflexivity|]. split; [discriminate|auto]. }
  destruct (if valid_symbols INTERPOLATION_END && in_interpolation s
            then scan_interpolation_end l s else (false, s, l))
    as [[f1 s1] l1].
  destruct (H1 f1 s1 l1 eq_refl) as (Hs1 & Ht1 & Hf1).
  clear H1. destruct f1.
  - intros H. inversion H; subst.
    destruct (Ht1 eq_refl) as (Hc & Hsym & Hv & Hi & Hs).
    split; [exact Hs1|]. split.
    + exists [RBRACE]. split; [exact Hc|discriminate].
    + intros _. left. auto.
  - destruct (Hf1 eq_refl) as [-> Hi1]. clear Ht1 Hf1.
    set (s2 := if in_interpolation s1
               then if lookahead l =? LBRACE
                    then set_interpolation_depth s1
                           (uint8_incr (interpolation_depth s1))
                    else s1
               else s1).
    assert (Hs2 : in_string s2 = in_string s
                  /\ in_interpolation s2 = in_interpolation s).
    { subst s2. destruct (in_interpolation s1) eqn:E1;
        [destruct (lookahead l =? LBRACE)|]; simpl; split; congruence. }
    destruct Hs2 as [Hs2 Hi2]. clearbody s2.
    assert (Hnone : forall s0,
               in_string s0 = in_string s ->
               in_string s0 = in_string s
               /\ (exists a, consumes l l a /\ (false = true -> a <> []))
               /\ (false = true ->
                   (result_symbol l = Some INTERPOLATION_END
                    /\ valid_symbols INTERPOLATION_END = true
                    /\ in_interpolation s = true
                    /\ s0 = mkScanner (in_string s) false 0)
                   \/ (result_symbol l = Some STRING_CONTENT
                       /\ valid_symbols STRING_CONTENT = true
                       /\ in_string s = true
                       /\ in_interpolation s0 = in_interpolation s
                       /\ stops_loop (rest l))
                   \/ (result_symbol l = Some INTERPOLATION_START
                       /\ valid_symbols STRING_CONTENT = true
                       /\ in_string s = true
                       /\ in_interpolation s0 = true
                       /\ interpolation_depth s0 = 1))).
    { intros s0 H0. split; [exact H0|]. split; [|discriminate].
      exists []. split; [apply consumes_refl|discriminate]. }
    destruct (valid_symbols STRING_CONTENT) eqn:Hv; simpl.
    + destruct (in_string s2) eqn:Hstr.
      * intros H. unfold scan_string_content in H.
        apply string_content_loop_facts in H.
        destruct H as ((a & Hc & Ha) & Hr).
        split; [destruct Hr as [(-> & _) | (-> & _)]; simpl; congruence|].
        split; [exists a; split; [exact Hc|exact (Ha eq_refl)]|].
        intros Hf.
        destruct Hr as [(-> & Hstop & Hsym) | (-> & _ & Hsym)].
        -- right. left. repeat split; auto; congruence.
        -- right. right. repeat split; auto; congruence.
      * intros H. inversion H; subst. apply Hnone. congruence.
    + intros H. inversion H; subst. apply Hnone. congruence.
Qed.

(** X1.  A call started with the token start at the cursor skips a run of
    whitespace and then consumes a stretch of input that is exactly the
    token: nothing of the input is dropped, repeated or reordered, and
    what is left follows what was skipped and consumed. *)
Theorem scan_conserves_input :
  forall (iswspace : Z -> bool) (fuel : nat) (s : Scanner) (l : TSLexer)
         (valid_symbols : TokenType -> bool) found s' l',
    token l = [] ->
    scan iswspace fuel s l valid_symbols = Some (found, s', l') ->
    exists ws,
      forallb iswspace ws = true
      /\ skipped l' = skipped l ++ ws
      /\ rest l = ws ++ token l' ++ rest l'
      /\ lexer_text l' = lexer_text l.
Proof.
  intros iswspace fuel s l v found s' l' Htok. unfold scan.
  destruct (skip_whitespace iswspace fuel l) as [l1|] eqn:Hskip;
    [|discriminate].
  intros H.
  destruct (skip_whitespace_facts iswspace fuel l l1 Hskip)
    as (ws & Hr & Hall & _ & Hx & _ & Ht).
  destruct (Ht Htok) as [Ht1 Hk1].
  destruct (scan_tokens_facts fuel s l1 v found s' l' H)
    as (_ & (a & Hc & _) & _).
  pose proof (consumes_text l1 l' a Hc) as Hx'.
  destruct Hc as (Hk & Hta & Hra).
  rewrite Ht1 in Hta. simpl in Hta.
  exists ws. repeat split.
  - exact Hall.
  - congruence.
  - rewrite Hr, Hra, Hta. reflexivity.
  - congruence.
Qed.

Lemma scan_conserves_input_witness :
  exists ws,
    forallb iswspace_C ws = true
    /\ skipped (mkLexer [32; 32] [97; 92; 34] [34] (Some STRING_CONTENT))
       = skipped (lexer_at [32; 32; 97; 92; 34; 34]) ++ ws
    /\ rest (lexer_at [32; 32; 97; 92; 34; 34])
       = ws ++ token (mkLexer [32; 32] [97; 92; 34] [34]
                        (Some STRING_CONTENT))
            ++ rest (mkLexer [32; 32] [97; 92; 34] [34]
                       (Some STRING_CONTENT))
    /\ lexer_text (mkLexer [32; 32] [97; 92; 34] [34] (Some STRING_CONTENT))
       = lexer_text (lexer_at [32; 32; 97; 92; 34; 34]).
Proof.
  exact (scan_conserves_input iswspace_C 7 (mkScanner true false 0)
           (lexer_at [32; 32; 97; 92; 34; 34]) only_string_content
           true (mkScanner true false 0)
           (mkLexer [32; 32] [97; 92; 34] [34] (Some STRING_CONTENT))
           eq_refl eq_refl).
Defined.

(** X2.  A call that reports a token has consumed at least one
    character: the token is never empty and the cursor has moved. *)
Theorem scan_token_not_empty :
  forall (iswspace : Z -> bool) (fuel : nat) (s : Scanner) (l : TSLexer)
         (valid_symbols : TokenType -> bool) s' l',
    scan iswspace fuel s l valid_symbols = Some (true, s', l') ->
    token l' <> []
    /\ (length (rest l') < length (rest l))%nat.
Proof.
  intros iswspace fuel s l v s' l'. unfold scan.
  destruct (skip_whitespace iswspace fuel l) as [l1|] eqn:Hskip;
    [|discriminate].
  intros H.
  destruct (skip_whitespace_facts iswspace fuel l l1 Hskip)
    as (ws & Hr & _).
  destruct (scan_tokens_facts fuel s l1 v true s' l' H)
    as (_ & (a & Hc & Ha) & _).
  specialize (Ha eq_refl). destruct Hc as (_ & Hta & Hra).
  assert (Hlen : (0 < length a)%nat).
  { destruct a; [contradiction|simpl; lia]. }
  split.
  - rewrite Hta. intros E. apply app_eq_nil in E. destruct E as [_ E].
    contradiction.
  - rewrite Hr, Hra, !length_app. lia.
Qed.

Lemma scan_token_not_empty_witness :
  token (mkLexer [] [125] [34] (Some INTERPOLATION_END)) <> []
  /\ (length (rest (mkLexer [] [125%Z] [34%Z] (Some INTERPOLATION_END)))
      < length (rest (lexer_at [125%Z; 34%Z])))%nat.
Proof.
  exact (scan_token_not_empty iswspace_C 3 (mkScanner true true 1)
           (lexer_at [125; 34]) every_symbol (mkScanner true false 0)
           (mkLexer [] [125] [34] (Some INTERPOLATION_END)) eq_refl).
Defined.

(** X3.  No call writes [in_string]. *)
Theorem scan_keeps_in_string :
  forall (iswspace : Z -> bool) (fuel : nat) (s : Scanner) (l : TSLexer)
         (valid_symbols : TokenType -> bool) found s' l',
    scan iswspace fuel s l valid_symbols = Some (found, s', l') ->
    in_string s' = in_string s.
Proof.
  intros iswspace fuel s l v found s' l'. unfold scan.
  destruct (skip_whitespace iswspace fuel l) as [l1|]; [|discriminate].
  intros H. now destruct (scan_tokens_facts fuel s l1 v found s' l' H).
Qed.

Lemma scan_keeps_in_string_witness :
  in_string (mkScanner true true 1) = in_string (mkScanner true false 0).
Proof.
  exact (scan_keeps_in_string iswspace_C 3 (mkScanner true false 0)
           (lexer_at [36; 123]) only_string_content true
           (mkScanner true true 1)
           (mkLexer [] [36; 123] [] (Some INTERPOLATION_START)) eq_refl).
Defined.

(** X4.  The context of each reported kind.  InterpolationEnd is reported
    only when it is accepted and the state is inside an interpolation,
    and it leaves the state outside with depth 0.  StringContent and
    InterpolationStart are reported only when StringContent is accepted
    and [in_string] is set (whether InterpolationStart is accepted is
    never looked at); StringContent leaves [in_interpolation] as it was,
    InterpolationStart sets it with depth 1. *)
Theorem scan_token_context :
  forall (iswspace : Z -> bool) (fuel : nat) (s : Scanner) (l : TSLexer)
         (valid_symbols : TokenType -> bool) s' l',
    scan iswspace fuel s l valid_symbols = Some (true, s', l') ->
    (result_symbol l' = Some INTERPOLATION_END
     /\ valid_symbols INTERPOLATION_END = true
     /\ in_interpolation s = true
     /\ s' = mkScanner (in_string s) false 0)
    \/ (result_symbol l' = Some STRING_CONTENT
        /\ valid_symbols STRING_CONTENT = true
        /\ in_string s = true
        /\ in_interpolation s' = in_interpolation s)
    \/ (result_symbol l' = Some INTERPOLATION_START
        /\ valid_symbols STRING_CONTENT = true
        /\ in_string s = true
        /\ in_interpolation s' = true
        /\ interpolation_depth s' = 1).
Proof.
  intros iswspace fuel s l v s' l'. unfold scan.
  destruct (skip_whitespace iswspace fuel l) as [l1|]; [|discriminate].
  intros H.
  destruct (scan_tokens_facts fuel s l1 v true s' l' H) as (_ & _ & Hk).
  destruct (Hk eq_refl) as [Hk1 | [Hk1 | Hk1]]; auto.
  right. left. destruct Hk1 as (H1 & H2 & H3 & H4 & _). auto.
Qed.

Lemma scan_token_context_witness :
  (result_symbol (mkLexer [] [36; 123] [] (Some INTERPOLATION_START))
   = Some INTERPOLATION_END
   /\ only_string_content INTERPOLATION_END = true
   /\ in_interpolation (mkScanner true false 0) = true
   /\ mkScanner true true 1
      = mkScanner (in_string (mkScanner true false 0)) false 0)
  \/ (result_symbol (mkLexer [] [36; 123] [] (Some INTERPOLATION_START))
      = Some STRING_CONTENT
      /\ only_string_content STRING_CONTENT = true
      /\ in_string (mkScanner true false 0) = true
      /\ in_interpolation (mkScanner true true 1)
         = in_interpolation (mkScanner true false 0))
  \/ (result_symbol (mkLexer [] [36; 123] [] (Some INTERPOLATION_START))
      = Some INTERPOLATION_START
      /\ only_string_content STRING_CONTENT = true
      /\ in_string (mkScanner true false 0) = true
      /\ in_interpolation (mkScanner true true 1) = true
      /\ interpolation_depth (mkScanner true true 1) = 1).
Proof.
  exact (scan_token_context iswspace_C 3 (mkScanner true false 0)
           (lexer_at [36; 123]) only_string_content
           (mkScanner true true 1)
           (mkLexer [] [36; 123] [] (Some INTERPOLATION_START)) eq_refl).
Defined.

(** X5.  A StringContent token ends where the loop stops without
    consuming: after a call that reports StringContent the cursor is at
    the end of the input as the source tests it, or at a quote. *)
Theorem string_content_ends_at_quote_or_end :
  forall (iswspace : Z -> bool) (fuel : nat) (s : Scanner) (l : TSLexer)
         (valid_symbols : TokenType -> bool) s' l',
    scan iswspace fuel s l valid_symbols = Some (true, s', l') ->
    result_symbol l' = Some STRING_CONTENT ->
    at_end l' = true \/ lookahead l' = QUOTE.
Proof.
  intros iswspace fuel s l v s' l'. unfold scan.
  destruct (skip_whitespace iswspace fuel l) as [l1|]; [|discriminate].
  intros H Hsym.
  destruct (scan_tokens_facts fuel s l1 v true s' l' H) as (_ & _ & Hk).
  destruct (Hk eq_refl) as [Hk1 | [Hk1 | Hk1]];
    try (destruct Hk1 as (Hk1 & _); congruence).
  destruct Hk1 as (_ & _ & _ & _ & Hstop).
  unfold stops_loop in Hstop. unfold at_end, lookahead, eof.
  destruct (rest l') as [|c r]; [left; reflexivity|].
  destruct Hstop as [-> | ->]; [left|right]; reflexivity.
Qed.

Lemma string_content_ends_at_quote_or_end_witness :
  at_end (mkLexer [] [97; 36] [34; 98] (Some STRING_CONTENT)) = true
  \/ lookahead (mkLexer [] [97; 36] [34; 98] (Some STRING_CONTENT)) = QUOTE.
Proof.
  exact (string_content_ends_at_quote_or_end iswspace_C 5
           (mkScanner true false 0) (lexer_at [97; 36; 34; 98])
           only_string_content (mkScanner true false 0)
           (mkLexer [] [97; 36] [34; 98] (Some STRING_CONTENT))
           eq_refl eq_refl).
Defined.



(** ** A scanner nobody has put inside a string *)

Lemma scan_tokens_idle (fuel : nat) (s : Scanner) (l : TSLexer)
    (valid_symbols : TokenType -> bool) :
  in_interpolation s = false ->
  valid_symbols STRING_CONTENT && in_string s = false ->
  scan_tokens fuel s l valid_symbols = Some (false, s, l).
Proof.
  intros Hi Hv. unfold scan_tokens.
  rewrite Hi, andb_false_r. cbv beta iota. rewrite Hi, Hv. reflexivity.
Qed.

(** X7.  Outside an interpolation, and with StringContent not accepted
    or [in_string] clear, a call only skips whitespace: it reports no
    token and leaves the state as it was. *)
Theorem scan_idle :
  forall (iswspace : Z -> bool) (fuel : nat) (s : Scanner) (l : TSLexer)
         (valid_symbols : TokenType -> bool),
    in_interpolation s = false ->
    valid_symbols STRING_CONTENT && in_string s = false ->
    scan iswspace fuel s l valid_symbols
    = option_map (fun l1 => (false, s, l1)) (skip_whitespace iswspace fuel l).
Proof.
  intros iswspace fuel s l v Hi Hv. unfold scan.
  destruct (skip_whitespace iswspace fuel l) as [l1|]; [|reflexivity].
  simpl. now apply scan_tokens_idle.
Qed.

Lemma scan_idle_witness :
  scan iswspace_C 5 create (lexer_at [32; 36; 123; 34]) every_symbol
  = option_map (fun l1 => (false, create, l1))
      (skip_whitespace iswspace_C 5 (lexer_at [32; 36; 123; 34])).
Proof.
  exact (scan_idle iswspace_C 5 create (lexer_at [32; 36; 123; 34])
           every_symbol eq_refl eq_refl).
Defined.

Lemma scan_from_create (iswspace : Z -> bool) (fuel : nat) (l : TSLexer)
    (valid_symbols : TokenType -> bool) found s' l' :
  scan iswspace fuel create l valid_symbols = Some (found, s', l') ->
  found = false /\ s' = create.
Proof.
  unfold scan.
  destruct (skip_whitespace iswspace fuel l) as [l1|]; [|discriminate].
  rewrite (scan_tokens_idle fuel create l1 valid_symbols eq_refl)
    by (simpl; apply andb_false_r).
  intros H. inversion H. auto.
Qed.

Lemma entry_reachable_create (iswspace : Z -> bool) (s : Scanner) :
  entry_reachable iswspace s -> s = create.
Proof.
  induction 1 as [|s fuel l v found s' l' _ IH Hscan|s h _ IH|h buf Hlen].
  - reflexivity.
  - subst s. now destruct (scan_from_create iswspace fuel l v found s' l').
  - subst s. reflexivity.
  - now apply deserialize_short.
Qed.

(** X8.  Through [create], [scan], [serialize] and [deserialize] alone a
    session never leaves the initial state: nothing in the scanner sets
    [in_string], so every state so reached is the state of [create], and
    a call in it reports no token whatever the input and the accepted
    kinds. *)
Theorem entry_points_never_leave_create :
  forall (iswspace : Z -> bool) (s : Scanner),
    entry_reachable iswspace s ->
    s = create
    /\ forall fuel l valid_symbols found s' l',
         scan iswspace fuel s l valid_symbols = Some (found, s', l') ->
         found = false /\ s' = create.
Proof.
  intros iswspace s Hr.
  pose proof (entry_reachable_create iswspace s Hr) as ->.
  split; [reflexivity|].
  intros fuel l v found s' l'. apply scan_from_create.
Qed.

Lemma entry_points_never_leave_create_witness :
  entry_reachable iswspace_C
    (deserialize (mkScanner true true 9) (serialize create))
  /\ deserialize (mkScanner true true 9) (serialize create) = create
  /\ forall fuel l valid_symbols found s' l',
       scan iswspace_C fuel
         (deserialize (mkScanner true true 9) (serialize create))
         l valid_symbols = Some (found, s', l') ->
       found = false /\ s' = create.
Proof.
  assert (Hr : entry_reachable iswspace_C
                 (deserialize (mkScanner true true 9) (serialize create))).
  { apply entry_restore. apply entry_create. }
  split; [exact Hr|].
  exact (entry_points_never_leave_create iswspace_C _ Hr).
Defined.

(** ** The codec on arbitrary buffers *)

(** X9.  Whatever the buffer, [deserialize] gives a state whose depth is
    a [uint8_t] value, and that state is a fixed point of the codec:
    serializing it and deserializing the snapshot gives it back, and the
    two flag bytes of the snapshot are 0 or 1 even when those of the
    buffer were not. *)
Theorem deserialize_normalises :
  forall (handle handle' : Scanner) (buffer : list byte),
    Scanner_wf (deserialize handle buffer)
    /\ deserialize handle' (serialize (deserialize handle buffer))
       = deserialize handle buffer
    /\ exists f0 f1 d,
         map Byte.to_N (serialize (deserialize handle buffer))
         = [N.b2n f0; N.b2n f1; d].
Proof.
  intros handle handle' buffer.
  pose proof (deserialize_wf handle buffer) as Hwf.
  destruct (codec_roundtrip_wf (deserialize handle buffer) handle' Hwf)
    as (_ & Hbytes & Hrt).
  split; [exact Hwf|]. split; [exact Hrt|].
  eexists _, _, _. exact Hbytes.
Qed.

(** X10.  Two different states with [uint8_t] depths have different
    snapshots. *)
Theorem serialize_injective :
  forall (s1 s2 : Scanner),
    Scanner_wf s1 -> Scanner_wf s2 ->
    s1 <> s2 ->
    serialize s1 <> serialize s2.
Proof.
  intros s1 s2 H1 H2 Hne E. apply Hne.
  destruct (codec_roundtrip_wf s1 create H1) as (_ & _ & R1).
  destruct (codec_roundtrip_wf s2 create H2) as (_ & _ & R2).
  rewrite <- R1, <- R2, E. reflexivity.
Qed.

Lemma serialize_injective_witness :
  serialize (mkScanner true false 3) <> serialize (mkScanner true false 4).
Proof.
  apply (serialize_injective (mkScanner true false 3)
           (mkScanner true false 4)).
  - unfold Scanner_wf, uint8_range. simpl. lia.
  - unfold Scanner_wf, uint8_range. simpl. lia.
  - discriminate.
Defined.

(** ** Dollars and braces *)

(** X11.  A dollar that no opening brace follows is content: the
    iteration consumes the dollar alone, sets [has_content] and goes
    round again, the next character still to be read.  Unlike a trailing
    backslash, a dollar right before the end of the input or a quote
    makes the loop report StringContent. *)
Theorem lone_dollar_is_content :
  forall (l : TSLexer) (s : Scanner) (h : bool) (fuel : nat),
    lookahead l = DOLLAR ->
    lookahead (advance l) <> LBRACE ->
    string_content_iter l s h = Continue (advance l) true
    /\ consumes l (advance l) [DOLLAR]
    /\ (stops_loop (rest (advance l)) ->
        string_content_loop (S (S fuel)) l s h
        = Some (true, s, set_result_symbol (advance l) STRING_CONTENT)).
Proof.
  intros l s h fuel Hl Hnb.
  assert (Hne : rest l <> [])
    by (apply (lookahead_rest l DOLLAR); [discriminate|assumption]).
  assert (Hend : at_end l = false).
  { destruct (rest l) as [|c r] eqn:E; [contradiction|].
    rewrite (at_end_cons l c r E).
    rewrite (lookahead_cons l c r E) in Hl. subst c. reflexivity. }
  assert (Hiter : string_content_iter l s h = Continue (advance l) true).
  { unfold string_content_iter. rewrite Hend, Hl.
    change (DOLLAR =? QUOTE) with false.
    change (DOLLAR =? BACKSLASH) with false.
    change (DOLLAR =? DOLLAR) with true. cbv iota.
    apply Z.eqb_neq in Hnb. rewrite Hnb. reflexivity. }
  split; [exact Hiter|]. split.
  - destruct (consumes_advance_cons l Hne) as (c & Hc & Hlc).
    rewrite Hl in Hlc. subst c. exact Hc.
  - intros Hstop. cbn [string_content_loop]. rewrite Hiter.
    rewrite (string_content_iter_stop _ s true Hstop). reflexivity.
Qed.

Lemma lone_dollar_is_content_witness :
  string_content_iter (lexer_at [36]) (mkScanner true false 0) false
  = Continue (advance (lexer_at [36])) true
  /\ consumes (lexer_at [36]) (advance (lexer_at [36])) [DOLLAR]
  /\ (stops_loop (rest (advance (lexer_at [36]))) ->
      string_content_loop 2 (lexer_at [36]) (mkScanner true false 0) false
      = Some (true, mkScanner true false 0,
              set_result_symbol (advance (lexer_at [36])) STRING_CONTENT)).
Proof.
  apply (lone_dollar_is_content (lexer_at [36]) (mkScanner true false 0)
           false 0%nat).
  - reflexivity.
  - discriminate.
Defined.

Lemma stops_loop_lookahead (l : TSLexer) :
  stops_loop (rest l) -> lookahead l = NUL \/ lookahead l = QUOTE.
Proof.
  unfold stops_loop, lookahead. destruct (rest l) as [|c r]; auto.
Qed.

(** X12.  In front of the end of the input, a NUL or a quote a call
    reports no token and changes neither the state nor the lexer,
    whatever the state and the accepted kinds. *)
Theorem scan_at_stop_does_nothing :
  forall (iswspace : Z -> bool) (fuel : nat) (s : Scanner) (l : TSLexer)
         (valid_symbols : TokenType -> bool),
    iswspace (lookahead l) = false ->
    stops_loop (rest l) ->
    scan iswspace (S fuel) s l valid_symbols = Some (false, s, l).
Proof.
  intros iswspace fuel s l v Hws Hstop. unfold scan.
  rewrite (skip_whitespace_none iswspace fuel l Hws).
  assert (Hl : lookahead l <> RBRACE /\ lookahead l <> LBRACE).
  { destruct (stops_loop_lookahead l Hstop) as [-> | ->];
      split; discriminate. }
  destruct Hl as [Hr Hb].
  destruct (scan_tokens_without_end (S fuel) s l v)
    as (s2 & _ & _ & Heq & E).
  - apply Z.eqb_neq in Hr. rewrite Hr, andb_false_r. reflexivity.
  - rewrite E, (Heq Hr Hb).
    destruct (v STRING_CONTENT && in_string s); [|reflexivity].
    unfold scan_string_content. cbn [string_content_loop].
    rewrite (string_content_iter_stop l s false Hstop). reflexivity.
Qed.

Lemma scan_at_stop_does_nothing_witness :
  scan iswspace_C 1 (mkScanner true true 5) (lexer_at []) every_symbol
  = Some (false, mkScanner true true 5, lexer_at []).
Proof.
  exact (scan_at_stop_does_nothing iswspace_C 0 (mkScanner true true 5)
           (lexer_at []) every_symbol eq_refl I).
Defined.

(** The call when neither interpolation-end matching nor string-content
    scanning runs on the character at the cursor. *)
Lemma scan_tokens_bookkeeping (fuel : nat) (s : Scanner) (l : TSLexer)
    (valid_symbols : TokenType -> bool) :
  valid_symbols INTERPOLATION_END && in_interpolation s
    && (lookahead l =? RBRACE) = false ->
  valid_symbols STRING_CONTENT && in_string s = false ->
  scan_tokens fuel s l valid_symbols
  = Some (false,
          (if in_interpolation s && (lookahead l =? LBRACE)
           then set_interpolation_depth s
                  (uint8_incr (interpolation_depth s))
           else s),
          l).
Proof.
  intros Hno Hv. unfold scan_tokens.
  assert (E : (if valid_symbols INTERPOLATION_END && in_interpolation s
               then scan_interpolation_end l s else (false, s, l))
              = (false, s, l)).
  { destruct (valid_symbols INTERPOLATION_END && in_interpolation s);
      [|reflexivity].
    simpl in Hno. apply scan_interpolation_end_elsewhere.
    now apply Z.eqb_neq. }
  rewrite E. cbv beta iota.
  destruct (in_interpolation s); simpl andb;
    [destruct (lookahead l =? LBRACE)|]; simpl in_string;
    rewrite Hv; reflexivity.
Qed.

Lemma scan_tokens_end_matching (fuel : nat) (s : Scanner) (l : TSLexer)
    (valid_symbols : TokenType -> bool) :
  valid_symbols INTERPOLATION_END = true ->
  in_interpolation s = true ->
  lookahead l = RBRACE ->
  valid_symbols STRING_CONTENT && in_string s = false ->
  scan_tokens fuel s l valid_symbols
  = if uint8_decr (interpolation_depth s) =? 0
    then Some (true, mkScanner (in_string s) false 0,
               set_result_symbol (advance l) INTERPOLATION_END)
    else Some (false,
               set_interpolation_depth s
                 (uint8_decr (interpolation_depth s)), l).
Proof.
  intros Hie Hi Hl Hv. unfold scan_tokens. rewrite Hie, Hi. simpl andb.
  cbv iota. rewrite (scan_interpolation_end_at_brace l s Hi Hl).
  destruct (uint8_decr (interpolation_depth s) =? 0); [reflexivity|].
  cbv beta iota. simpl in_interpolation. rewrite Hi, Hl.
  change (RBRACE =? LBRACE) with false. cbv iota.
  simpl in_string. rewrite Hv. reflexivity.
Qed.

(** X13.  Inside an interpolation, with string-content scanning not
    running and the cursor at a character that is no whitespace, what a
    call does is decided by that character.  At an opening brace it adds
    one to the depth modulo 256 whatever kinds are accepted (from 255 the
    depth wraps to 0), consumes nothing and reports no token.  At a
    closing brace with InterpolationEnd not accepted it changes nothing
    and reports no token.  At a closing brace with InterpolationEnd
    accepted it takes one off the depth modulo 256 and, only when that
    gives zero, consumes the brace, clears [in_interpolation] and reports
    InterpolationEnd.  At any other character it changes nothing and
    reports no token. *)
Theorem brace_counting :
  forall (iswspace : Z -> bool) (fuel : nat) (s : Scanner) (l : TSLexer)
         (valid_symbols : TokenType -> bool),
    in_interpolation s = true ->
    valid_symbols STRING_CONTENT && in_string s = false ->
    iswspace (lookahead l) = false ->
    (lookahead l = LBRACE ->
       scan iswspace (S fuel) s l valid_symbols
       = Some (false,
               set_interpolation_depth s (uint8_incr (interpolation_depth s)),
               l)
       /\ (interpolation_depth s = 255 ->
           scan iswspace (S fuel) s l valid_symbols
           = Some (false, set_interpolation_depth s 0, l)))
    /\ (lookahead l = RBRACE ->
        valid_symbols INTERPOLATION_END = false ->
        scan iswspace (S fuel) s l valid_symbols = Some (false, s, l))
    /\ (lookahead l = RBRACE ->
        valid_symbols INTERPOLATION_END = true ->
        scan iswspace (S fuel) s l valid_symbols
        = if uint8_decr (interpolation_depth s) =? 0
          then Some (true, mkScanner (in_string s) false 0,
                     set_result_symbol (advance l) INTERPOLATION_END)
          else Some (false,
                     set_interpolation_depth s
                       (uint8_decr (interpolation_depth s)), l))
    /\ (lookahead l <> LBRACE ->
        lookahead l <> RBRACE ->
        scan iswspace (S fuel) s l valid_symbols = Some (false, s, l)).
Proof.
  intros iswspace fuel s l v Hi Hv Hws.
  unfold scan. rewrite (skip_whitespace_none iswspace fuel l Hws).
  split; [|split; [|split]].
  - intros Hl.
    assert (E : scan_tokens (S fuel) s l v
                = Some (false,
                        set_interpolation_depth s
                          (uint8_incr (interpolation_depth s)), l)).
    { rewrite scan_tokens_bookkeeping.
      - rewrite Hi, Hl. reflexivity.
      - rewrite Hl, andb_false_r. reflexivity.
      - exact Hv. }
    split; [exact E|]. intros Hd. rewrite E, Hd. reflexivity.
  - intros Hl Hie. rewrite scan_tokens_bookkeeping.
    + rewrite Hi, Hl. reflexivity.
    + rewrite Hie. reflexivity.
    + exact Hv.
  - intros Hl Hie. now apply scan_tokens_end_matching.
  - intros Hb Hr. rewrite scan_tokens_bookkeeping.
    + apply Z.eqb_neq in Hb. rewrite Hb, andb_false_r. reflexivity.
    + apply Z.eqb_neq in Hr. rewrite Hr, andb_false_r. reflexivity.
    + exact Hv.
Qed.

Lemma brace_counting_witness :
  scan iswspace_C 1 (mkScanner false true 255) (lexer_at [123; 125])
    every_symbol
  = Some (false, mkScanner false true 0, lexer_at [123; 125])
  /\ scan iswspace_C 1 (mkScanner true true 2) (lexer_at [125]) no_symbol
     = Some (false, mkScanner true true 2, lexer_at [125])
  /\ scan iswspace_C 1 (mkScanner false true 1) (lexer_at [125; 34])
       every_symbol
     = Some (true, mkScanner false false 0,
             mkLexer [] [125] [34] (Some INTERPOLATION_END))
  /\ scan iswspace_C 1 (mkScanner false true 2) (lexer_at [125; 34])
       every_symbol
     = Some (false, mkScanner false true 1, lexer_at [125; 34])
  /\ scan iswspace_C 1 (mkScanner false true 2) (lexer_at [97]) every_symbol
     = Some (false, mkScanner false true 2, lexer_at [97]).
Proof.
  split; [|split; [|split; [|split]]].
  - apply (proj1 (brace_counting iswspace_C 0 (mkScanner false true 255)
                    (lexer_at [123; 125]) every_symbol
                    eq_refl eq_refl eq_refl) eq_refl).
    reflexivity.
  - exact (proj1 (proj2 (brace_counting iswspace_C 0 (mkScanner true true 2)
                           (lexer_at [125]) no_symbol
                           eq_refl eq_refl eq_refl))
             eq_refl eq_refl).
  - exact (proj1 (proj2 (proj2 (brace_counting iswspace_C 0
                                  (mkScanner false true 1)
                                  (lexer_at [125; 34]) every_symbol
                                  eq_refl eq_refl eq_refl)))
             eq_refl eq_refl).
  - exact (proj1 (proj2 (proj2 (brace_counting iswspace_C 0
                                  (mkScanner false true 2)
                                  (lexer_at [125; 34]) every_symbol
                                  eq_refl eq_refl eq_refl)))
             eq_refl eq_refl).
  - apply (proj2 (proj2 (proj2 (brace_counting iswspace_C 0
                                  (mkScanner false true 2)
                                  (lexer_at [97]) every_symbol
                                  eq_refl eq_refl eq_refl))));
      discriminate.
Defined.

(** ** Calls in sequence *)

Lemma uint8_decr_incr (d : Z) : uint8_range d -> uint8_decr (uint8_incr d) = d.
Proof.
  unfold uint8_range, uint8_decr, uint8_incr. intros Hd.
  destruct (Z.eq_dec d 255) as [-> | Hne]; [reflexivity|].
  rewrite (Z.mod_small (d + 1)) by lia.
  replace (d + 1 - 1) with d by lia. apply Z.mod_small. lia.
Qed.

Lemma set_interpolation_depth_same (s : Scanner) :
  set_interpolation_depth s (interpolation_depth s) = s.
Proof. destruct s; reflexivity. Qed.

Lemma scan_tokens_at_closing_brace (fuel : nat) (s : Scanner) (l : TSLexer)
    (valid_symbols : TokenType -> bool) :
  valid_symbols INTERPOLATION_END = true ->
  in_interpolation s = true ->
  lookahead l = RBRACE ->
  scan_tokens fuel s l valid_symbols
  = if uint8_decr (interpolation_depth s) =? 0
    then Some (true, mkScanner (in_string s) false 0,
               set_result_symbol (advance l) INTERPOLATION_END)
    else if valid_symbols STRING_CONTENT && in_string s
         then scan_string_content fuel l
                (set_interpolation_depth s
                   (uint8_decr (interpolation_depth s)))
         else Some (false,
                    set_interpolation_depth s
                      (uint8_decr (interpolation_depth s)), l).
Proof.
  intros Hv Hi Hl. unfold scan_tokens. rewrite Hv, Hi. simpl andb.
  cbv iota. rewrite (scan_interpolation_end_at_brace l s Hi Hl).
  destruct (uint8_decr (interpolation_depth s) =? 0); [reflexivity|].
  cbv beta iota. simpl in_interpolation. rewrite Hi, Hl.
  change (RBRACE =? LBRACE) with false. reflexivity.
Qed.

(** X14.  A pair of braces nested in an interpolation leaves the state as
    it found it: at depth 1 to 255, with InterpolationEnd accepted and
    string-content scanning not running, the call at the opening brace
    adds one to the depth and the call at the closing brace takes it off
    again, neither reporting a token or consuming the brace. *)
Theorem nested_braces_restore_depth :
  forall (iswspace : Z -> bool) (fuel : nat) (s : Scanner)
         (l1 l2 : TSLexer) (valid_symbols : TokenType -> bool),
    in_interpolation s = true ->
    1 <= interpolation_depth s <= 255 ->
    valid_symbols INTERPOLATION_END = true ->
    valid_symbols STRING_CONTENT && in_string s = false ->
    lookahead l1 = LBRACE ->
    lookahead l2 = RBRACE ->
    iswspace LBRACE = false ->
    iswspace RBRACE = false ->
    exists s1,
      scan iswspace (S fuel) s l1 valid_symbols = Some (false, s1, l1)
      /\ interpolation_depth s1 = uint8_incr (interpolation_depth s)
      /\ scan iswspace (S fuel) s1 l2 valid_symbols = Some (false, s, l2).
Proof.
  intros iswspace fuel s l1 l2 v Hi Hd Hie Hsc Hl1 Hl2 Hwb Hwr.
  exists (set_interpolation_depth s (uint8_incr (interpolation_depth s))).
  split; [|split; [reflexivity|]].
  - unfold scan. rewrite skip_whitespace_none by now rewrite Hl1.
    rewrite scan_tokens_bookkeeping.
    + rewrite Hi, Hl1. reflexivity.
    + rewrite Hl1, andb_false_r. reflexivity.
    + exact Hsc.
  - unfold scan. rewrite skip_whitespace_none by now rewrite Hl2.
    rewrite scan_tokens_at_closing_brace by assumption.
    simpl interpolation_depth. simpl in_string.
    rewrite uint8_decr_incr by (unfold uint8_range; lia).
    destruct (Z.eqb_spec (interpolation_depth s) 0) as [E|_]; [lia|].
    rewrite Hsc. unfold set_interpolation_depth. simpl.
    destruct s; reflexivity.
Qed.

Lemma nested_braces_restore_depth_witness :
  exists s1,
    scan iswspace_C 1 (mkScanner false true 255) (lexer_at [123; 49; 125])
      all_but_error_sentinel
    = Some (false, s1, lexer_at [123; 49; 125])
    /\ interpolation_depth s1
       = uint8_incr (interpolation_depth (mkScanner false true 255))
    /\ scan iswspace_C 1 s1 (lexer_at [125]) all_but_error_sentinel
       = Some (false, mkScanner false true 255, lexer_at [125]).
Proof.
  apply (nested_braces_restore_depth iswspace_C 0 (mkScanner false true 255)
           (lexer_at [123; 49; 125]) (lexer_at [125])
           all_but_error_sentinel);
    try reflexivity.
  simpl. lia.
Defined.

(** X15.  Opening and closing an interpolation brings the state back: in
    a string, outside an interpolation and at depth 0, a call at [${]
    with StringContent accepted reports InterpolationStart spanning the
    two characters, and a later call at a closing brace with
    InterpolationEnd accepted reports InterpolationEnd spanning the brace
    and leaves the state as it was before the opener. *)
Theorem open_then_close_restores_state :
  forall (iswspace : Z -> bool) (fuel : nat) (s : Scanner)
         (l1 l2 : TSLexer) (r : list Z)
         (valid_symbols valid_symbols' : TokenType -> bool),
    in_string s = true ->
    in_interpolation s = false ->
    interpolation_depth s = 0 ->
    valid_symbols STRING_CONTENT = true ->
    valid_symbols' INTERPOLATION_END = true ->
    token l1 = [] ->
    rest l1 = DOLLAR :: LBRACE :: r ->
    iswspace DOLLAR = false ->
    token l2 = [] ->
    lookahead l2 = RBRACE ->
    iswspace RBRACE = false ->
    exists s1,
      scan iswspace (S fuel) s l1 valid_symbols
      = Some (true, s1,
              mkLexer (skipped l1) [DOLLAR; LBRACE] r
                (Some INTERPOLATION_START))
      /\ scan iswspace (S fuel) s1 l2 valid_symbols'
         = Some (true, s,
                 mkLexer (skipped l2) [RBRACE] (tl (rest l2))
                   (Some INTERPOLATION_END)).
Proof.
  intros iswspace fuel s l1 l2 r v v' Hstr Hi Hd Hv Hv' Ht1 Hr1 Hwd
         Ht2 Hl2 Hwr.
  pose proof (lookahead_cons l1 _ _ Hr1) as Hl1.
  exists (mkScanner (in_string s) true 1). split.
  - unfold scan. rewrite skip_whitespace_none by now rewrite Hl1.
    destruct (scan_tokens_without_end (S fuel) s l1 v)
      as (s2 & _ & _ & Heq & E).
    + rewrite Hi, andb_false_r. reflexivity.
    + rewrite E, Hv, Hstr. simpl andb. cbv iota.
      rewrite Heq by (rewrite Hl1; discriminate).
      unfold scan_string_content.
      rewrite (string_content_loop_opener [] l1 s false r (S fuel) Hr1
                 eq_refl) by (simpl; lia).
      rewrite Ht1, ?Hstr. reflexivity.
  - unfold scan. rewrite skip_whitespace_none by now rewrite Hl2.
    rewrite scan_tokens_at_closing_brace by (assumption || reflexivity).
    simpl interpolation_depth. change (uint8_decr 1 =? 0) with true.
    cbv iota. simpl in_string.
    destruct (lookahead_nonzero l2) as (r2 & Hr2);
      [rewrite Hl2; discriminate|].
    rewrite Hl2 in Hr2. rewrite (advance_cons l2 _ _ Hr2), Hr2, Ht2.
    destruct s as [str itp d]. simpl in *. subst. reflexivity.
Qed.

Lemma open_then_close_restores_state_witness :
  exists s1,
    scan iswspace_C 1 (mkScanner true false 0)
      (lexer_at [36; 123; 120; 125; 34]) only_string_content
    = Some (true, s1,
            mkLexer [] [DOLLAR; LBRACE] [120; 125; 34]
              (Some INTERPOLATION_START))
    /\ scan iswspace_C 1 s1 (lexer_at [125; 34]) all_but_error_sentinel
       = Some (true, mkScanner true false 0,
               mkLexer [] [RBRACE] (tl (rest (lexer_at [125; 34])))
                 (Some INTERPOLATION_END)).
Proof.
  exact (open_then_close_restores_state iswspace_C 0 (mkScanner true false 0)
           (lexer_at [36; 123; 120; 125; 34]) (lexer_at [125; 34])
           [120; 125; 34] only_string_content all_but_error_sentinel
           eq_refl eq_refl eq_refl eq_refl eq_refl eq_refl eq_refl eq_refl
           eq_refl eq_refl eq_refl).
Defined.

(** X16.  An unterminated literal still gives its content: when the text
    after the leading whitespace holds no quote, backslash, dollar or NUL
    and runs to the end of the input, or to a NUL, the call with
    StringContent accepted and [in_string] set reports StringContent
    spanning exactly that text, a NUL left unconsumed (interpolation-end
    matching not taking the first character). *)
Theorem unterminated_content :
  forall (iswspace : Z -> bool) (s : Scanner)
         (valid_symbols : TokenType -> bool) (l : TSLexer)
         (ws content stop : list Z) (fuel : nat),
    in_string s = true ->
    valid_symbols STRING_CONTENT = true ->
    token l = [] ->
    rest l = ws ++ content ++ stop ->
    stop = [] \/ (exists tl, stop = NUL :: tl) ->
    forallb iswspace ws = true ->
    content <> [] ->
    iswspace (hd 0 content) = false ->
    forallb plain content = true ->
    valid_symbols INTERPOLATION_END && in_interpolation s
      && (hd 0 content =? RBRACE)
      && (uint8_decr (interpolation_depth s) =? 0) = false ->
    (length (rest l) < fuel)%nat ->
    exists s',
      scan iswspace fuel s l valid_symbols
      = Some (true, s',
              mkLexer (skipped l ++ ws) content stop (Some STRING_CONTENT))
      /\ in_string s' = in_string s
      /\ in_interpolation s' = in_interpolation s.
Proof.
  intros iswspace s v l ws content stop fuel
         Hstr Hv Htok Hrest Hstop Hws Hne Hhd Hplain Hno Hfuel.
  destruct content as [|c content]; [contradiction|]. simpl in Hhd, Hno.
  assert (Hlen : (length ws + S (length content) <= length (rest l))%nat).
  { rewrite Hrest. repeat (rewrite length_app; simpl). lia. }
  assert (Hstops : stops_loop stop).
  { destruct Hstop as [-> | (tl & ->)]; simpl; auto. }
  unfold scan.
  rewrite (skip_whitespace_run iswspace ws l c (content ++ stop) fuel
             Htok Hrest Hws Hhd) by lia.
  set (l1 := mkLexer (skipped l ++ ws) [] (c :: content ++ stop)
               (result_symbol l)).
  destruct (scan_tokens_without_end fuel s l1 v Hno)
    as (s2 & Hs2 & Hi2 & _ & E).
  rewrite E, Hv, Hstr. simpl andb. cbv iota.
  unfold scan_string_content.
  rewrite (string_content_loop_plain (c :: content) l1 s2 false
             stop fuel eq_refl Hplain Hstops)
    by (simpl; lia).
  exists s2. simpl. repeat split; congruence.
Qed.

Lemma unterminated_content_witness :
  exists s',
    scan iswspace_C 6 (mkScanner true false 0)
      (lexer_at [32; 97; 98; 0; 99]) only_string_content
    = Some (true, s', mkLexer [32] [97; 98] [0; 99] (Some STRING_CONTENT))
    /\ in_string s' = true
    /\ in_interpolation s' = false.
Proof.
  apply (unterminated_content iswspace_C (mkScanner true false 0)
           only_string_content (lexer_at [32; 97; 98; 0; 99])
           [32] [97; 98] [0; 99] 6%nat);
    try reflexivity.
  - right. exists [99]. reflexivity.
  - discriminate.
  - simpl. lia.
Defined.

(** ** The shape of a token *)

Lemma at_end_stops_loop (l : TSLexer) :
  at_end l = true -> stops_loop (rest l).
Proof.
  unfold at_end, lookahead, eof, stops_loop.
  destruct (rest l) as [|c r]; [auto|].
  rewrite orb_false_r. intros H. apply Z.eqb_eq in H. now left.
Qed.

(** What one iteration of the string-content loop consumes. *)
Lemma string_content_iter_item (l : TSLexer) (s : Scanner) (h : bool) :
  match string_content_iter l s h with
  | Break => stops_loop (rest l)
  | Return (_, _, l') => consumes l l' [DOLLAR; LBRACE]
  | Continue l' _ =>
      (exists c, c <> NUL /\ consumes l l' [BACKSLASH; c])
      \/ (consumes l l' [BACKSLASH] /\ at_end l' = true)
      \/ (consumes l l' [DOLLAR] /\ lookahead l' <> LBRACE)
      \/ (exists c, c <> BACKSLASH /\ c <> QUOTE /\ c <> DOLLAR
                    /\ c <> NUL /\ consumes l l' [c])
  end.
Proof.
  pose proof (string_content_iter_facts l s h) as F.
  unfold string_content_iter in *.
  destruct (at_end l) eqn:Hend; [exact F|].
  destruct (at_end_false l Hend) as (c & r & Hr & Hc).
  assert (Hone : consumes l (advance l) [c]).
  { destruct (consumes_advance_cons l) as (c' & Hc' & Hl');
      [rewrite Hr; discriminate|].
    rewrite (lookahead_cons l c r Hr) in Hl'. now subst c'. }
  rewrite (lookahead_cons l c r Hr) in *.
  destruct (Z.eqb_spec c QUOTE) as [Hq|Hq]; [exact F|].
  clear F.
  destruct (Z.eqb_spec c BACKSLASH) as [Hb|Hb].
  - subst c.
    destruct (at_end (advance l)) eqn:Hend1; simpl.
    + right. left. auto.
    + left. destruct (at_end_false _ Hend1) as (c1 & r1 & Hr1 & Hc1).
      exists c1. split; [exact Hc1|].
      apply (consumes_trans l (advance l) _ [BACKSLASH] [c1] Hone).
      destruct (consumes_advance_cons (advance l)) as (c' & Hc' & Hl');
        [rewrite Hr1; discriminate|].
      rewrite (lookahead_cons _ _ _ Hr1) in Hl'. now subst c'.
  - destruct (Z.eqb_spec c DOLLAR) as [Hd|Hd].
    + subst c.
      destruct (Z.eqb_spec (lookahead (advance l)) LBRACE) as [Ho|Ho].
      * rewrite advance_set_result_symbol.
        apply consumes_set_result_symbol.
        apply (consumes_trans l (advance l) _ [DOLLAR] [LBRACE] Hone).
        destruct (consumes_advance_cons (advance l)) as (c' & Hc' & Hl').
        -- apply (lookahead_rest _ LBRACE); [discriminate|assumption].
        -- rewrite Ho in Hl'. now subst c'.
      * right. right. left. auto.
    + right. right. right. exists c.
      split; [exact Hb|split; [exact Hq|split; [exact Hd|]]].
      split; [exact Hc|exact Hone].
Qed.

(** The text the string-content loop consumes has the shape [scanned]. *)
Lemma string_content_loop_shape (fuel : nat) :
  forall (l : TSLexer) (s : Scanner) (h : bool) found s' l',
    string_content_loop fuel l s h = Some (found, s', l') ->
    exists a,
      consumes l l' a
      /\ ((scanned false a
           /\ (found = true -> result_symbol l' = Some STRING_CONTENT))
          \/ (scanned true a /\ found = true
              /\ result_symbol l' = Some INTERPOLATION_START)).
Proof.
  induction fuel as [|fuel IH]; intros l s h found s' l' H;
    [discriminate|].
  cbn [string_content_loop] in H.
  pose proof (string_content_iter_item l s h) as I.
  pose proof (string_content_iter_return l s h) as R.
  destruct (string_content_iter l s h) as [|[[f1 s1] l1]|l1 h1].
  - exists []. destruct h; inversion H; subst.
    + split; [apply consumes_set_result_symbol, consumes_refl|].
      left. split; [constructor|reflexivity].
    + split; [apply consumes_refl|].
      left. split; [constructor|discriminate].
  - destruct (R _ eq_refl) as (l2 & E & Hsym). inversion E; subst.
    inversion H; subst. exists [DOLLAR; LBRACE].
    split; [exact I|]. right. split; [constructor|auto].
  - clear R. destruct I as [(c & Hc & Hcons) | [(Hcons & Hend)
                           | [(Hcons & Hnb) | (c & H1 & H2 & H3 & H4 & Hcons)]]].
    + destruct (IH _ _ _ _ _ _ H) as (a & Ha & Hs).
      exists ([BACKSLASH; c] ++ a).
      split; [now apply (consumes_trans l l1)|].
      destruct Hs as [(Hs & Hr) | (Hs & Hr)]; [left|right];
        (split; [now apply scanned_escape|exact Hr]).
    + destruct fuel as [|fuel]; [discriminate|].
      cbn [string_content_loop] in H.
      rewrite (string_content_iter_stop l1 s h1 (at_end_stops_loop l1 Hend))
        in H.
      exists ([BACKSLASH] ++ []). destruct h1; inversion H; subst.
      * split.
        -- apply (consumes_trans l l1); [exact Hcons|].
           apply consumes_set_result_symbol, consumes_refl.
        -- left. split; [constructor|reflexivity].
      * split.
        -- apply (consumes_trans l l'); [exact Hcons|apply consumes_refl].
        -- left. split; [constructor|discriminate].
    + destruct (IH _ _ _ _ _ _ H) as (a & Ha & Hs).
      exists ([DOLLAR] ++ a).
      split; [now apply (consumes_trans l l1)|].
      assert (Hhd : hd 0 a <> LBRACE).
      { destruct a as [|c a]; [discriminate|].
        destruct Ha as (_ & _ & Hra). simpl.
        rewrite <- (lookahead_cons l1 c _ Hra). exact Hnb. }
      destruct Hs as [(Hs & Hr) | (Hs & Hr)]; [left|right];
        (split; [now apply scanned_dollar|exact Hr]).
    + destruct (IH _ _ _ _ _ _ H) as (a & Ha & Hs).
      exists ([c] ++ a).
      split; [now apply (consumes_trans l l1)|].
      destruct Hs as [(Hs & Hr) | (Hs & Hr)]; [left|right];
        (split; [now apply scanned_char|exact Hr]).
Qed.

Lemma scanned_no_NUL (opener : bool) (a : list Z) :
  scanned opener a -> ~ In NUL a.
Proof.
  induction 1 as [| | |o c a Hc _ IH|o a _ _ IH|o c a _ _ _ Hc _ IH];
    simpl; intros Hin.
  - exact Hin.
  - destruct Hin as [E | [E | []]]; discriminate E.
  - destruct Hin as [E | []]; discriminate E.
  - destruct Hin as [E | [E | Hin]];
      [discriminate E|now apply Hc|now apply IH].
  - destruct Hin as [E | Hin]; [discriminate E|now apply IH].
  - destruct Hin as [E | Hin]; [now apply Hc|now apply IH].
Qed.

(** How [scan_tokens] comes to its result. *)
Lemma scan_tokens_cases (fuel : nat) (s : Scanner) (l : TSLexer)
    (valid_symbols : TokenType -> bool) found s' l' :
  scan_tokens fuel s l valid_symbols = Some (found, s', l') ->
  (found = true /\ scan_interpolation_end l s = (true, s', l'))
  \/ (exists s2,
        string_content_loop fuel l s2 false = Some (found, s', l'))
  \/ (found = false /\ l' = l).
Proof.
  unfold scan_tokens.
  assert (H1 : forall f1 s1 l1,
             (if valid_symbols INTERPOLATION_END && in_interpolation s
              then scan_interpolation_end l s else (false, s, l))
             = (f1, s1, l1) ->
             (f1 = true -> scan_interpolation_end l s = (true, s1, l1))
             /\ (f1 = false -> l1 = l)).
  { intros f1 s1 l1.
    destruct (valid_symbols INTERPOLATION_END && in_interpolation s).
    - intros E. split.
      + intros ->. exact E.
      + intros ->. apply scan_interpolation_end_facts in E.
        now destruct E as (_ & _ & Hf); destruct (Hf eq_refl).
    - intros E. inversion E; subst. split; [discriminate|reflexivity]. }
  destruct (if valid_symbols INTERPOLATION_END && in_interpolation s
            then scan_interpolation_end l s else (false, s, l))
    as [[f1 s1] l1].
  destruct (H1 f1 s1 l1 eq_refl) as [Ht Hf]. clear H1. destruct f1.
  - intros H. inversion H; subst. left. auto.
  - rewrite (Hf eq_refl).
    match goal with |- context [valid_symbols STRING_CONTENT && ?b] =>
      destruct (valid_symbols STRING_CONTENT && b) end.
    + intros H. right. left. eexists. exact H.
    + intros H. inversion H; subst. right. right. auto.
Qed.

(** X17.  The shape of every token.  In a call started with the token
    start at the cursor, an InterpolationEnd token is the closing brace
    alone; a StringContent token is a sequence of escape pairs (a
    backslash and any character but NUL), dollars that no opening brace
    follows and characters that are no backslash, quote, dollar or NUL,
    possibly ended by a lone backslash; an InterpolationStart token is
    such a sequence followed by the opener.  So a quote in a token always
    follows a backslash, and no token holds a NUL. *)
Theorem token_shape :
  forall (iswspace : Z -> bool) (fuel : nat) (s : Scanner) (l : TSLexer)
         (valid_symbols : TokenType -> bool) s' l',
    token l = [] ->
    scan iswspace fuel s l valid_symbols = Some (true, s', l') ->
    ((result_symbol l' = Some INTERPOLATION_END /\ token l' = [RBRACE])
     \/ (result_symbol l' = Some STRING_CONTENT
         /\ scanned false (token l'))
     \/ (result_symbol l' = Some INTERPOLATION_START
         /\ scanned true (token l')))
    /\ ~ In NUL (token l').
Proof.
  intros iswspace fuel s l v s' l' Htok. unfold scan.
  destruct (skip_whitespace iswspace fuel l) as [l1|] eqn:Hskip;
    [|discriminate].
  intros H.
  destruct (skip_whitespace_facts iswspace fuel l l1 Hskip)
    as (ws & _ & _ & _ & _ & _ & Ht).
  destruct (Ht Htok) as [Ht1 _].
  destruct (scan_tokens_cases fuel s l1 v true s' l' H)
    as [(_ & E) | [(s2 & E) | (E & _)]]; [| |discriminate E].
  - apply scan_interpolation_end_facts in E.
    destruct E as (_ & Hf & _).
    destruct (Hf eq_refl) as ((_ & Hta & _) & _ & Hsym & _).
    rewrite Ht1 in Hta. simpl in Hta. rewrite Hta.
    split; [left; auto|].
    simpl. intros [E | []]. discriminate E.
  - apply string_content_loop_shape in E.
    destruct E as (a & (_ & Hta & _) & Hs).
    rewrite Ht1 in Hta. simpl in Hta. rewrite Hta.
    destruct Hs as [(Hs & Hsym) | (Hs & _ & Hsym)].
    + split; [right; left; auto|]. now apply (scanned_no_NUL false).
    + split; [right; right; auto|]. now apply (scanned_no_NUL true).
Qed.

Lemma token_shape_witness :
  ((result_symbol (mkLexer [] [97; 92; 34; 36; 98] [34]
                     (Some STRING_CONTENT)) = Some INTERPOLATION_END
    /\ token (mkLexer [] [97; 92; 34; 36; 98] [34] (Some STRING_CONTENT))
       = [RBRACE])
   \/ (result_symbol (mkLexer [] [97; 92; 34; 36; 98] [34]
                        (Some STRING_CONTENT)) = Some STRING_CONTENT
       /\ scanned false
            (token (mkLexer [] [97; 92; 34; 36; 98] [34]
                      (Some STRING_CONTENT))))
   \/ (result_symbol (mkLexer [] [97; 92; 34; 36; 98] [34]
                        (Some STRING_CONTENT)) = Some INTERPOLATION_START
       /\ scanned true
            (token (mkLexer [] [97; 92; 34; 36; 98] [34]
                      (Some STRING_CONTENT)))))
  /\ ~ In NUL (token (mkLexer [] [97; 92; 34; 36; 98] [34]
                        (Some STRING_CONTENT))).
Proof.
  exact (token_shape iswspace_C 7 (mkScanner true false 0)
           (lexer_at [97; 92; 34; 36; 98; 34]) only_string_content
           (mkScanner true false 0)
           (mkLexer [] [97; 92; 34; 36; 98] [34] (Some STRING_CONTENT))
           eq_refl eq_refl).
Defined.
